(** * Weather-Ai: the controller of [src/App.tsx]

    The React component [App] keeps four pieces of component state
    ([weather], [loading], [error], [currentLocation]) and drives them from
    event handlers that suspend on the browser's geolocation service and on
    the weather client.  The handlers are embedded as programs of a small
    command language with an explicit suspension point for [await]; a world
    holds the component state together with the callbacks and continuations
    that are parked while the browser or the network is busy. *)

From Stdlib Require Import List String Ascii Bool Floats Arith Lia.
Import ListNotations.

Set Implicit Arguments.

Local Open Scope string_scope.
Local Open Scope list_scope.

(** ** Data model *)

(** JavaScript numbers are IEEE 754 binary64 values. *)
Definition number : Set := float.

(** Modelled from the spec: the declarations of [./types/weather], which
    [App.tsx] imports; section 3 gives the fields that are used here. *)
Record Location : Set := {
  name : string;
  country : string;
  lat : number;
  lon : number
}.

(** Modelled from the spec: [LocationSuggestion] of [./types/weather]. *)
Record LocationSuggestion : Set := {
  suggestion_name : string;
  suggestion_country : string;
  suggestion_lat : number;
  suggestion_lon : number
}.

(** Modelled from the spec: the [current] part of [WeatherData]. *)
Record Current : Set := {
  temperature : number;
  condition : string;
  humidity : number;
  windSpeed : number
}.

(** The argument of the geolocation success callback ([position.coords]). *)
Record Position : Set := {
  latitude : number;
  longitude : number
}.

(** The coordinates of New York, the fallback of [requestLocation]. *)
#[warnings="-inexact-float"] Definition DEFAULT_LATITUDE : number := 40.7128%float.
#[warnings="-inexact-float"] Definition DEFAULT_LONGITUDE : number := (-74.0060)%float.

(** JavaScript truthiness of a [string | null] value. *)
Definition truthy (v : option string) : bool :=
  match v with
  | Some EmptyString => false
  | Some _ => true
  | None => false
  end.

Section Controller.

(** The element types of [forecast] and [alerts] are declared in
    [./types/weather]; the controller never looks inside them. *)
Context {DailyForecast Alert : Type}.

(** Whatever a rejected promise or the geolocation service hands to the
    error handlers. *)
Context {JsError : Type}.

(** Modelled from the spec: [WeatherData] of [./types/weather], with the
    fields of section 3. *)
Record WeatherData : Type := {
  location : Location;
  current : Current;
  forecast : list DailyForecast;
  alerts : list Alert
}.

(** The component state declared by the four [useState] calls. *)
Record AppState : Type := {
  weather : option WeatherData;
  loading : bool;
  error : option string;
  currentLocation : string
}.

Definition initialState : AppState :=
  {| weather := None; loading := true; error := None; currentLocation := "" |}.

Definition setWeather (v : option WeatherData) (s : AppState) : AppState :=
  {| weather := v; loading := loading s; error := error s;
     currentLocation := currentLocation s |}.

Definition setLoading (v : bool) (s : AppState) : AppState :=
  {| weather := weather s; loading := v; error := error s;
     currentLocation := currentLocation s |}.

Definition setError (v : option string) (s : AppState) : AppState :=
  {| weather := weather s; loading := loading s; error := v;
     currentLocation := currentLocation s |}.

Definition setCurrentLocation (v : string) (s : AppState) : AppState :=
  {| weather := weather s; loading := loading s; error := error s;
     currentLocation := v |}.

(** ** Handler programs *)

(** How the promise of [getWeatherByLocation] settles. *)
Inductive Result : Type :=
| Resolved (weatherData : WeatherData)
| Rejected (err : JsError).

(** Handler code: state setters, [console.error], the test
    ['geolocation' in navigator], [getCurrentPosition] with its two
    callbacks, and the suspension on [getWeatherByLocation]. *)
Inductive Prog : Type :=
| Done
| Throw (err : JsError)
| SetWeather (v : option WeatherData) (k : Prog)
| SetLoading (v : bool) (k : Prog)
| SetError (v : option string) (k : Prog)
| SetCurrentLocation (v : string) (k : Prog)
| ConsoleError (label : string) (err : JsError) (k : Prog)
| GeolocationInNavigator (k : bool -> Prog)
| GetCurrentPosition (onSuccess : Position -> Prog)
    (onError : JsError -> Prog) (k : Prog)
| AwaitWeatherByLocation (lat lon : number) (k : Result -> Prog).

(** [try { body } catch (err) { handler err }]. *)
Fixpoint try_catch (body : Prog) (handler : JsError -> Prog) : Prog :=
  match body with
  | Done => Done
  | Throw err => handler err
  | SetWeather v k => SetWeather v (try_catch k handler)
  | SetLoading v k => SetLoading v (try_catch k handler)
  | SetError v k => SetError v (try_catch k handler)
  | SetCurrentLocation v k => SetCurrentLocation v (try_catch k handler)
  | ConsoleError l e k => ConsoleError l e (try_catch k handler)
  | GeolocationInNavigator k =>
      GeolocationInNavigator (fun b => try_catch (k b) handler)
  | GetCurrentPosition ok ko k =>
      GetCurrentPosition ok ko (try_catch k handler)
  | AwaitWeatherByLocation la lo k =>
      AwaitWeatherByLocation la lo (fun r => try_catch (k r) handler)
  end.

(** Sequencing; an exception skips what follows. *)
Fixpoint seq (p q : Prog) : Prog :=
  match p with
  | Done => q
  | Throw err => Throw err
  | SetWeather v k => SetWeather v (seq k q)
  | SetLoading v k => SetLoading v (seq k q)
  | SetError v k => SetError v (seq k q)
  | SetCurrentLocation v k => SetCurrentLocation v (seq k q)
  | ConsoleError l e k => ConsoleError l e (seq k q)
  | GeolocationInNavigator k => GeolocationInNavigator (fun b => seq (k b) q)
  | GetCurrentPosition ok ko k => GetCurrentPosition ok ko (seq k q)
  | AwaitWeatherByLocation la lo k =>
      AwaitWeatherByLocation la lo (fun r => seq (k r) q)
  end.

(** [try { body } finally { final }]: [final] runs on both exits, and an
    exception that reached it is thrown again afterwards. *)
Fixpoint try_finally (body final : Prog) : Prog :=
  match body with
  | Done => final
  | Throw err => seq final (Throw err)
  | SetWeather v k => SetWeather v (try_finally k final)
  | SetLoading v k => SetLoading v (try_finally k final)
  | SetError v k => SetError v (try_finally k final)
  | SetCurrentLocation v k => SetCurrentLocation v (try_finally k final)
  | ConsoleError l e k => ConsoleError l e (try_finally k final)
  | GeolocationInNavigator k =>
      GeolocationInNavigator (fun b => try_finally (k b) final)
  | GetCurrentPosition ok ko k =>
      GetCurrentPosition ok ko (try_finally k final)
  | AwaitWeatherByLocation la lo k =>
      AwaitWeatherByLocation la lo (fun r => try_finally (k r) final)
  end.

(** [const x = await getWeatherByLocation(lat, lon); k x]: a rejection is
    thrown at the suspension point. *)
Definition await_getWeatherByLocation (lat lon : number)
    (k : WeatherData -> Prog) : Prog :=
  AwaitWeatherByLocation lat lon
    (fun r => match r with
              | Resolved weatherData => k weatherData
              | Rejected err => Throw err
              end).

Notation "c ;; k" := (c k) (at level 61, right associativity, only parsing).

Definition FETCH_FAILED : string :=
  "Failed to fetch weather data. Please try again.".

(** [App.tsx], lines 18-31. *)
Definition fetchWeatherData (lat lon : number) : Prog :=
  try_finally
    (try_catch
       (SetLoading true ;;
        SetError None ;;
        await_getWeatherByLocation lat lon (fun weatherData =>
        SetWeather (Some weatherData) ;;
        SetCurrentLocation
          (name (location weatherData) ++ ", "
             ++ country (location weatherData)) ;;
        Done))
       (fun err =>
        SetError (Some FETCH_FAILED) ;;
        ConsoleError "Weather fetch error:" err ;;
        Done))
    (SetLoading false ;; Done).

(** [App.tsx], lines 33-35. *)
Definition handleLocationSelect (location : LocationSuggestion) : Prog :=
  fetchWeatherData (suggestion_lat location) (suggestion_lon location).

(** [App.tsx], lines 37-41.  The handler closes over the [weather] of the
    render that installed it. *)
Definition handleRefresh (weather : option WeatherData) : Prog :=
  match weather with
  | Some w => fetchWeatherData (lat (location w)) (lon (location w))
  | None => Done
  end.

(** [App.tsx], lines 43-59. *)
Definition requestLocation : Prog :=
  GeolocationInNavigator (fun available =>
    if available then
      GetCurrentPosition
        (fun position =>
           fetchWeatherData (latitude position) (longitude position))
        (fun error =>
           ConsoleError "Geolocation error:" error ;;
           fetchWeatherData DEFAULT_LATITUDE DEFAULT_LONGITUDE) ;;
      Done
    else
      fetchWeatherData DEFAULT_LATITUDE DEFAULT_LONGITUDE).

(** ** The world around the component *)

(** A call of [getWeatherByLocation] that has not settled yet, with the
    rest of the [fetchWeatherData] call that waits for it. *)
Record Fetch : Type := {
  req_lat : number;
  req_lon : number;
  resume : Result -> Prog
}.

(** A call of [getCurrentPosition] that has not been answered yet. *)
Record GeoRequest : Type := {
  onSuccess : Position -> Prog;
  onError : JsError -> Prog
}.

Record World : Type := {
  app : AppState;
  navigator_geolocation : bool;
  geo_pending : list GeoRequest;
  in_flight : list Fetch;
  console : list (string * JsError)
}.

Definition with_app (f : AppState -> AppState) (w : World) : World :=
  {| app := f (app w);
     navigator_geolocation := navigator_geolocation w;
     geo_pending := geo_pending w;
     in_flight := in_flight w;
     console := console w |}.

Definition log_error (label : string) (err : JsError) (w : World) : World :=
  {| app := app w;
     navigator_geolocation := navigator_geolocation w;
     geo_pending := geo_pending w;
     in_flight := in_flight w;
     console := console w ++ [(label, err)] |}.

Definition park_geo (g : GeoRequest) (w : World) : World :=
  {| app := app w;
     navigator_geolocation := navigator_geolocation w;
     geo_pending := geo_pending w ++ [g];
     in_flight := in_flight w;
     console := console w |}.

Definition park_fetch (f : Fetch) (w : World) : World :=
  {| app := app w;
     navigator_geolocation := navigator_geolocation w;
     geo_pending := geo_pending w;
     in_flight := in_flight w ++ [f];
     console := console w |}.

(** Runs handler code up to its end or to its suspension.  An exception
    that nothing caught ends the handler. *)
Fixpoint run (p : Prog) (w : World) : World :=
  match p with
  | Done => w
  | Throw _ => w
  | SetWeather v k => run k (with_app (setWeather v) w)
  | SetLoading v k => run k (with_app (setLoading v) w)
  | SetError v k => run k (with_app (setError v) w)
  | SetCurrentLocation v k => run k (with_app (setCurrentLocation v) w)
  | ConsoleError l e k => run k (log_error l e w)
  | GeolocationInNavigator k => run (k (navigator_geolocation w)) w
  | GetCurrentPosition ok ko k =>
      run k (park_geo {| onSuccess := ok; onError := ko |} w)
  | AwaitWeatherByLocation la lo k =>
      park_fetch {| req_lat := la; req_lon := lo; resume := k |} w
  end.

(** ** Rendering *)

(** The three [return]s of [App], lines 95-187, with the state each one
    shows; colours and layout are left out. *)
Inductive View : Type :=
| LoadingScreen
| ErrorScreen (message : option string)
| Dashboard (currentLocation : string) (refreshDisabled : bool)
    (weather : option WeatherData).

Definition is_some {A : Type} (o : option A) : bool :=
  match o with Some _ => true | None => false end.

Definition render (s : AppState) : View :=
  if loading s then LoadingScreen
  else if truthy (error s) && negb (is_some (weather s))
       then ErrorScreen (error s)
       else Dashboard (currentLocation s) (loading s) (weather s).

(** The states of section 4.3 of the specification, read off what is
    rendered. *)
Inductive Phase : Set := Idle | Loading | Ready | Failed.

Definition phase (s : AppState) : Phase :=
  match render s with
  | LoadingScreen => Loading
  | ErrorScreen _ => Failed
  | Dashboard _ _ (Some _) => Ready
  | Dashboard _ _ None => Idle
  end.

(** ** Events *)

(** What can happen to the component: the effect of line 61 runs when it
    mounts, the three buttons and the location search call their handlers,
    the device answers a position request, and a weather request settles.
    The answers name the parked request they belong to; nothing orders them,
    so fetches may overlap and settle in any order. *)
Inductive Event : Type :=
| Mount
| ClickTryAgain
| ClickUseLocation
| ClickRefresh
| SelectLocation (location : LocationSuggestion)
| PositionAcquired (i : nat) (position : Position)
| PositionFailed (i : nat) (err : JsError)
| FetchSettled (i : nat) (r : Result).

Fixpoint remove_nth {A : Type} (i : nat) (l : list A) : list A :=
  match i, l with
  | _, [] => []
  | O, _ :: l' => l'
  | S i', x :: l' => x :: remove_nth i' l'
  end.

Definition take_geo (i : nat) (w : World) : World :=
  {| app := app w;
     navigator_geolocation := navigator_geolocation w;
     geo_pending := remove_nth i (geo_pending w);
     in_flight := in_flight w;
     console := console w |}.

Definition take_fetch (i : nat) (w : World) : World :=
  {| app := app w;
     navigator_geolocation := navigator_geolocation w;
     geo_pending := geo_pending w;
     in_flight := remove_nth i (in_flight w);
     console := console w |}.

(** Which handler an event starts, if the event can happen at all: a button
    has to be on the screen, and an answer needs its request. *)
Definition step (w : World) (e : Event) : option World :=
  match e with
  | Mount => Some (run requestLocation w)
  | ClickTryAgain =>
      match render (app w) with
      | ErrorScreen _ => Some (run requestLocation w)
      | _ => None
      end
  | ClickUseLocation =>
      match render (app w) with
      | Dashboard _ _ _ => Some (run requestLocation w)
      | _ => None
      end
  | ClickRefresh =>
      match render (app w) with
      | Dashboard _ false _ => Some (run (handleRefresh (weather (app w))) w)
      | _ => None
      end
  | SelectLocation l =>
      match render (app w) with
      | Dashboard _ _ _ => Some (run (handleLocationSelect l) w)
      | _ => None
      end
  | PositionAcquired i position =>
      match nth_error (geo_pending w) i with
      | Some g => Some (run (onSuccess g position) (take_geo i w))
      | None => None
      end
  | PositionFailed i err =>
      match nth_error (geo_pending w) i with
      | Some g => Some (run (onError g err) (take_geo i w))
      | None => None
      end
  | FetchSettled i r =>
      match nth_error (in_flight w) i with
      | Some f => Some (run (resume f r) (take_fetch i w))
      | None => None
      end
  end.

Fixpoint steps (w : World) (es : list Event) : option World :=
  match es with
  | [] => Some w
  | e :: es' =>
      match step w e with
      | Some w' => steps w' es'
      | None => None
      end
  end.

(** The world before the component is mounted; [geo] tells whether the
    browser has a geolocation service. *)
Definition init (geo : bool) : World :=
  {| app := initialState;
     navigator_geolocation := geo;
     geo_pending := [];
     in_flight := [];
     console := [] |}.

Inductive reachable (geo : bool) : World -> Prop :=
| reachable_init : reachable geo (init geo)
| reachable_step (w w' : World) (e : Event) :
    reachable geo w -> step w e = Some w' -> reachable geo w'.

Definition coordinates (f : Fetch) : number * number :=
  (req_lat f, req_lon f).

(** Line 122: the insights are recomputed from the held weather on every
    render of the dashboard; [generateAIInsights] comes from
    [./utils/aiInsights]. *)
Definition insights {Insight : Type}
    (generateAIInsights : WeatherData -> list Insight)
    (weather : option WeatherData) : list Insight :=
  match weather with
  | Some w => generateAIInsights w
  | None => []
  end.

(** ** What is parked while the world is busy *)

(** The rest of [fetchWeatherData] after its [await]. *)
Definition fetch_resume (r : Result) : Prog :=
  try_finally
    (try_catch
       match r with
       | Resolved weatherData =>
           SetWeather (Some weatherData) ;;
           SetCurrentLocation
             (name (location weatherData) ++ ", "
                ++ country (location weatherData)) ;;
           Done
       | Rejected err => Throw err
       end
       (fun err =>
        SetError (Some FETCH_FAILED) ;;
        ConsoleError "Weather fetch error:" err ;;
        Done))
    (SetLoading false ;; Done).

(** The two callbacks that [requestLocation] hands to the browser. *)
Definition location_request : GeoRequest :=
  {| onSuccess := fun position =>
       fetchWeatherData (latitude position) (longitude position);
     onError := fun error =>
       ConsoleError "Geolocation error:" error ;;
       fetchWeatherData DEFAULT_LATITUDE DEFAULT_LONGITUDE |}.

(** Everything that is parked was parked by this component. *)
Definition parked_by_app (w : World) : Prop :=
  Forall (fun f => resume f = fetch_resume) (in_flight w)
  /\ Forall (fun g => g = location_request) (geo_pending w).

(** What holds of every world the component reaches: the parked code is its
    own, a set [loading] flag comes with a null [error], and [error] holds
    nothing but the message of a failed weather fetch. *)
Definition sound (w : World) : Prop :=
  parked_by_app w
  /\ (loading (app w) = true -> error (app w) = None)
  /\ (error (app w) = None \/ error (app w) = Some FETCH_FAILED).

Definition is_rejection (e : Event) : bool :=
  match e with
  | FetchSettled _ (Rejected _) => true
  | _ => false
  end.

(** ** A sentence of the specification, as it is worded *)

(** "fetch success -> ready, store WeatherData, clear error": the error
    field is null once a fetch has succeeded. *)
Definition success_leaves_no_error (geo : bool) : Prop :=
  forall (w w' : World) (i : nat) (x : WeatherData),
    reachable geo w ->
    step w (FetchSettled i (Resolved x)) = Some w' ->
    weather (app w') = Some x
    /\ error (app w') = None
    /\ loading (app w') = false.

End Controller.

(** ** The weather client *)

Section WeatherClient.

Context {DailyForecast Alert : Type}.

(** Modelled from the spec: the error kinds of section 7 that the client
    can fail with. *)
Inductive WeatherError : Set :=
| NetworkError
| ParseError
| NotFoundError.

(** Modelled from the spec: what comes back from the provider, as far as
    section 4.1 tells the cases apart. *)
Inductive Answer (B : Type) : Type :=
| TransportFailure
| MalformedJson
| NoData
| Json (body : B).

Arguments TransportFailure {B}.
Arguments MalformedJson {B}.
Arguments NoData {B}.

(** Modelled from the spec: the fields that the client consumes from the
    provider's report (section 6); a JSON object may lack any of them. *)
Record Report : Type := {
  report_name : option string;
  report_country : option string;
  report_lat : option number;
  report_lon : option number;
  report_temperature : option number;
  report_condition : option string;
  report_humidity : option number;
  report_wind : option number;
  report_forecast : option (list DailyForecast);
  report_alerts : option (list Alert)
}.

(** Modelled from the spec: the two remote calls that the client wraps. *)
Inductive Request : Set :=
| ByCoordinates (lat lon : number)
| ByQuery (text : string).

(** Modelled from the spec: client code of [./utils/weatherApi]; it returns,
    or it calls the network layer and goes on with the answer. *)
Inductive Net (A : Type) : Type :=
| Return (a : A)
| Lookup (lat lon : number) (k : Answer Report -> Net A)
| Search (text : string) (k : Answer (list LocationSuggestion) -> Net A).

Arguments Return {A}.
Arguments Lookup {A}.
Arguments Search {A}.

(** Modelled from the spec: the network layer, as what it answers to each
    of the two calls. *)
Record Transport : Type := {
  lookup : number -> number -> Answer Report;
  search : string -> Answer (list LocationSuggestion)
}.

(** Modelled from the spec: runs client code against a network layer; the
    second component lists the calls that were made. *)
Fixpoint run_net {A : Type} (t : Transport) (p : Net A)
    : A * list Request :=
  match p with
  | Return a => (a, [])
  | Lookup la lo k =>
      let (a, calls) := run_net t (k (lookup t la lo)) in
      (a, ByCoordinates la lo :: calls)
  | Search text k =>
      let (a, calls) := run_net t (k (search t text)) in
      (a, ByQuery text :: calls)
  end.

Definition bind_option {A B : Type} (o : option A) (f : A -> option B)
    : option B :=
  match o with
  | Some a => f a
  | None => None
  end.

Notation "x <- o ;; k" := (bind_option o (fun x => k))
  (at level 61, o at next level, right associativity, only parsing).

(** Modelled from the spec: "normalizes provider JSON into an internal
    WeatherData shape"; a report that lacks a field has no such shape. *)
Definition normalize (r : Report) : option (@WeatherData DailyForecast Alert) :=
  n <- report_name r ;;
  c <- report_country r ;;
  la <- report_lat r ;;
  lo <- report_lon r ;;
  t <- report_temperature r ;;
  cond <- report_condition r ;;
  h <- report_humidity r ;;
  ws <- report_wind r ;;
  f <- report_forecast r ;;
  a <- report_alerts r ;;
  Some {| location := {| name := n; country := c; lat := la; lon := lo |};
          current := {| temperature := t; condition := cond;
                        humidity := h; windSpeed := ws |};
          forecast := f;
          alerts := a |}.

(** Modelled from the spec: [fetchByCoordinates] of section 4.1 (the
    [getWeatherByLocation] of [./utils/weatherApi]): one attempt, and
    the three failures named there. *)
Definition fetchByCoordinates (lat lon : number)
    : Net (WeatherError + @WeatherData DailyForecast Alert) :=
  Lookup lat lon (fun answer =>
    Return
      match answer with
      | TransportFailure => inl NetworkError
      | MalformedJson => inl ParseError
      | NoData => inl NotFoundError
      | Json report =>
          match normalize report with
          | Some weatherData => inr weatherData
          | None => inl ParseError
          end
      end).

(** Modelled from the spec: the "whitespace" of section 4.1, as the white
    space of the ASCII range that [String.prototype.trim] removes. *)
Definition is_whitespace (c : ascii) : bool :=
  match nat_of_ascii c with
  | 9 | 10 | 11 | 12 | 13 | 32 => true
  | _ => false
  end.

(** Modelled from the spec: "empty/whitespace input". *)
Fixpoint is_blank (text : string) : bool :=
  match text with
  | EmptyString => true
  | String c rest => is_whitespace c && is_blank rest
  end.

(** Modelled from the spec: [fetchByQuery] of section 4.1: "empty/
    whitespace input returns an empty sequence without a network call";
    any other text is looked up with the provider. *)
Definition fetchByQuery (text : string)
    : Net (WeatherError + list LocationSuggestion) :=
  if is_blank text then Return (inr [])
  else
    Search text (fun answer =>
      Return
        match answer with
        | TransportFailure => inl NetworkError
        | MalformedJson => inl ParseError
        | NoData => inl NotFoundError
        | Json suggestions => inr suggestions
        end).

(** Modelled from the spec: "valid latitude in [-90,90], longitude in
    [-180,180]". *)
Definition valid_coordinates (lat lon : number) : bool :=
  ((-90 <=? lat) && (lat <=? 90) && (-180 <=? lon) && (lon <=? 180))%float.

End WeatherClient.

(** ** The insight engine *)

Section InsightEngine.

Context {DailyForecast Alert : Type}.

(** Modelled from the spec: [Insight] of section 3. *)
Record Insight : Set := {
  category : string;
  message : string;
  severity : string
}.

(** Modelled from the spec: section 9 has the rule table as "an ordered
    list of (predicate, message-template) pairs evaluated
    independently". *)
Record Rule : Type := {
  predicate : @WeatherData DailyForecast Alert -> bool;
  template : @WeatherData DailyForecast Alert -> Insight
}.

Implicit Types w : @WeatherData DailyForecast Alert.

(** Modelled from the spec: every rule is tried, in the order of the
    table, and each one that matches contributes its insight. *)
Fixpoint evaluate (rules : list Rule) w : list Insight :=
  match rules with
  | [] => []
  | rule :: rest =>
      if predicate rule w then template rule w :: evaluate rest w
      else evaluate rest w
  end.

(** Modelled from the spec: the thresholds and the texts of the rules, whose
    values the specification leaves open. *)
Record Settings : Set := {
  heat_threshold : number;
  wind_threshold : number;
  humidity_threshold : number;
  discomfort_temperature : number;
  heat_message : string;
  heat_severity : string;
  wind_message : string;
  wind_severity : string;
  discomfort_message : string;
  discomfort_severity : string
}.

Variable settings : Settings.

(** Modelled from the spec: "temperature above a heat threshold". *)
Definition hot w : bool :=
  (heat_threshold settings <? temperature (current w))%float.

(** Modelled from the spec: "wind speed above a threshold". *)
Definition windy w : bool :=
  (wind_threshold settings <? windSpeed (current w))%float.

(** Modelled from the spec: "humidity above a threshold combined with
    temperature". *)
Definition muggy w : bool :=
  ((humidity_threshold settings <? humidity (current w))
   && (discomfort_temperature settings <? temperature (current w)))%float.

(** Modelled from the spec: the insights of the three rules of section
    4.2. *)
Definition heat_insight : Insight :=
  {| category := "heat"; message := heat_message settings;
     severity := heat_severity settings |}.

Definition wind_insight : Insight :=
  {| category := "wind"; message := wind_message settings;
     severity := wind_severity settings |}.

Definition discomfort_insight : Insight :=
  {| category := "discomfort"; message := discomfort_message settings;
     severity := discomfort_severity settings |}.

(** Modelled from the spec: the rule table of section 4.2, in its
    priority order. *)
Definition rule_table : list Rule :=
  [ {| predicate := hot; template := fun _ => heat_insight |};
    {| predicate := windy; template := fun _ => wind_insight |};
    {| predicate := muggy; template := fun _ => discomfort_insight |} ].

(** Modelled from the spec: the insight engine of section 4.2
    ([generateAIInsights] of [./utils/aiInsights]). *)
Definition generateAIInsights w : list Insight :=
  evaluate rule_table w.

(** How many insights of a category a sequence holds. *)
Definition count_category (c : string) (l : list Insight) : nat :=
  count_occ string_dec (map category l) c.

End InsightEngine.

(** ** The background of the page *)

Section Background.

Context {DailyForecast Alert : Type}.

(** [String.prototype.toLowerCase] on the letters of the ASCII range, which
    is where the condition words of the provider and the labels of the
    [switch] live; other characters are kept. *)
Definition toLowerCase_char (c : ascii) : ascii :=
  if ((65 <=? nat_of_ascii c) && (nat_of_ascii c <=? 90))%nat
  then ascii_of_nat (nat_of_ascii c + 32)
  else c.

Fixpoint toLowerCase (s : string) : string :=
  match s with
  | EmptyString => EmptyString
  | String c rest => String (toLowerCase_char c) (toLowerCase rest)
  end.

Definition GRADIENT_DEFAULT : string :=
  "from-blue-600 via-blue-700 to-indigo-800".
Definition GRADIENT_NIGHT : string :=
  "from-indigo-900 via-purple-900 to-blue-900".
Definition GRADIENT_CLEAR : string :=
  "from-blue-400 via-blue-500 to-cyan-600".
Definition GRADIENT_CLOUDS : string :=
  "from-gray-500 via-gray-600 to-blue-700".
Definition GRADIENT_RAIN : string :=
  "from-gray-600 via-blue-700 to-indigo-800".
Definition GRADIENT_SNOW : string :=
  "from-blue-200 via-blue-400 to-indigo-600".
Definition GRADIENT_THUNDERSTORM : string :=
  "from-gray-800 via-purple-900 to-indigo-900".

(** Line 70: [hour < 6 || hour > 18]. *)
Definition isNight (hour : nat) : bool :=
  ((hour <? 6) || (18 <? hour))%nat.

(** [App.tsx], lines 65-93; [hour] is what [new Date().getHours()] gives
    when the page is rendered. *)
Definition getBackgroundGradient (hour : nat)
    (weather : option (@WeatherData DailyForecast Alert)) : string :=
  match weather with
  | None => GRADIENT_DEFAULT
  | Some w =>
      let condition := toLowerCase (condition (current w)) in
      if isNight hour then GRADIENT_NIGHT
      else if (condition =? "clear")%string || (condition =? "sunny")%string
      then GRADIENT_CLEAR
      else if (condition =? "clouds")%string || (condition =? "cloudy")%string
      then GRADIENT_CLOUDS
      else if (condition =? "rain")%string || (condition =? "drizzle")%string
      then GRADIENT_RAIN
      else if (condition =? "snow")%string then GRADIENT_SNOW
      else if (condition =? "thunderstorm")%string then GRADIENT_THUNDERSTORM
      else GRADIENT_DEFAULT
  end.

(** Two characters that are equal, or the capital and the small form of one
    letter of the ASCII range. *)
Definition same_letter (a b : ascii) : bool :=
  ((nat_of_ascii a =? nat_of_ascii b)
   || ((65 <=? nat_of_ascii a) && (nat_of_ascii a <=? 90)
       && (nat_of_ascii b =? nat_of_ascii a + 32))
   || ((65 <=? nat_of_ascii b) && (nat_of_ascii b <=? 90)
       && (nat_of_ascii a =? nat_of_ascii b + 32)))%nat.

(** Two strings that differ in the case of their letters at most. *)
Fixpoint same_letters (s1 s2 : string) : bool :=
  match s1, s2 with
  | EmptyString, EmptyString => true
  | String a r1, String b r2 => same_letter a b && same_letters r1 r2
  | _, _ => false
  end.

End Background.

(** ** Kinds of events *)

Section EventKinds.

Context {DailyForecast Alert JsError : Type}.

(** What the user does on the page. *)
Definition is_click (e : @Event DailyForecast Alert JsError) : bool :=
  match e with
  | ClickTryAgain | ClickUseLocation | ClickRefresh | SelectLocation _ => true
  | _ => false
  end.

(** A weather request that settles, either way. *)
Definition is_settlement (e : @Event DailyForecast Alert JsError) : bool :=
  match e with
  | FetchSettled _ _ => true
  | _ => false
  end.

(** A weather request that succeeds. *)
Definition is_success (e : @Event DailyForecast Alert JsError) : bool :=
  match e with
  | FetchSettled _ (Resolved _) => true
  | _ => false
  end.

(** What an event sends to [console.error]: lines 27 and 50. *)
Definition logged (e : @Event DailyForecast Alert JsError)
    : list (string * JsError) :=
  match e with
  | PositionFailed _ err => [("Geolocation error:", err)]
  | FetchSettled _ (Rejected err) => [("Weather fetch error:", err)]
  | _ => []
  end.

(** The label that belongs to the held weather: line 24, or the initial
    value of line 16. *)
Definition label_of (weather : option (@WeatherData DailyForecast Alert))
    : string :=
  match weather with
  | Some x => name (location x) ++ ", " ++ country (location x)
  | None => ""
  end.

(** What a step can do to the component state: nothing, start a fetch, or
    finish one, which only a settlement does. *)
Inductive Effect (w w' : @World DailyForecast Alert JsError)
    (e : @Event DailyForecast Alert JsError) : Prop :=
| effect_none : app w' = app w -> is_settlement e = false -> Effect w w' e
| effect_start :
    app w' = setError None (setLoading true (app w)) ->
    is_settlement e = false -> Effect w w' e
| effect_success (i : nat) (x : @WeatherData DailyForecast Alert) :
    e = FetchSettled i (Resolved x) ->
    app w'
    = setLoading false
        (setCurrentLocation (label_of (Some x))
           (setWeather (Some x) (app w))) ->
    Effect w w' e
| effect_failure (i : nat) (err : JsError) :
    e = FetchSettled i (Rejected err) ->
    app w' = setLoading false (setError (Some FETCH_FAILED) (app w)) ->
    Effect w w' e.

End EventKinds.

(** ** Scenarios *)

(** Concrete sessions, with errors that are their messages and no forecast
    or alert entries. *)
Definition Session : Type := @World unit unit string.

Definition new_york : @WeatherData unit unit :=
  {| location := {| name := "New York"; country := "US";
                    lat := DEFAULT_LATITUDE; lon := DEFAULT_LONGITUDE |};
     current := {| temperature := 21%float; condition := "Clear";
                   humidity := 40%float; windSpeed := 3%float |};
     forecast := [];
     alerts := [] |}.

Definition london : @WeatherData unit unit :=
  {| location := {| name := "London"; country := "GB";
                    lat := 51.5%float; lon := (-0.125)%float |};
     current := {| temperature := 14%float; condition := "Rain";
                   humidity := 80%float; windSpeed := 6%float |};
     forecast := [];
     alerts := [] |}.

Definition london_position : Position :=
  {| latitude := 51.5%float; longitude := (-0.125)%float |}.

(** The world after a session, from the mount of the component on a browser
    that has a geolocation service. *)
Definition after (es : list (@Event unit unit string)) : Session :=
  match steps (init true) es with
  | Some w => w
  | None => init true
  end.

(** The component is mounted and waits for the device. *)
Definition mounted : Session := Eval vm_compute in after [Mount].

(** The device has refused the position; the fallback fetch is in flight. *)
Definition denied : Session :=
  Eval vm_compute in after [Mount; PositionFailed 0 "denied"].

(** ... and the network is down: the fallback fetch failed. *)
Definition denied_offline : Session :=
  Eval vm_compute in
    after [Mount; PositionFailed 0 "denied"; FetchSettled 0 (Rejected "offline")].

(** ... then "Try Again" was clicked and the device refused once more. *)
Definition retried : Session :=
  Eval vm_compute in
    after [Mount; PositionFailed 0 "denied"; FetchSettled 0 (Rejected "offline");
           ClickTryAgain; PositionFailed 0 "denied"].

(** The device has refused the position and the fallback fetch succeeded. *)
Definition denied_online : Session :=
  Eval vm_compute in
    after [Mount; PositionFailed 0 "denied"; FetchSettled 0 (Resolved new_york)].

(** ... then refresh was clicked: a fetch is in flight over held weather. *)
Definition refreshing : Session :=
  Eval vm_compute in
    after [Mount; PositionFailed 0 "denied"; FetchSettled 0 (Resolved new_york);
           ClickRefresh].

(** ... and that fetch failed. *)
Definition refresh_failed : Session :=
  Eval vm_compute in
    after [Mount; PositionFailed 0 "denied"; FetchSettled 0 (Resolved new_york);
           ClickRefresh; FetchSettled 0 (Rejected "offline")].

(** From the dashboard the position is asked for twice; both answers come
    before either fetch settles, and the first of the two fetches fails. *)
Definition overlapping : Session :=
  Eval vm_compute in
    after [Mount; PositionFailed 0 "denied"; FetchSettled 0 (Resolved new_york);
           ClickUseLocation; ClickUseLocation;
           PositionAcquired 0 london_position;
           PositionAcquired 0 london_position;
           FetchSettled 0 (Rejected "offline")].

(** ... and the second one succeeds. *)
Definition overlapped : Session :=
  Eval vm_compute in
    after [Mount; PositionFailed 0 "denied"; FetchSettled 0 (Resolved new_york);
           ClickUseLocation; ClickUseLocation;
           PositionAcquired 0 london_position;
           PositionAcquired 0 london_position;
           FetchSettled 0 (Rejected "offline");
           FetchSettled 0 (Resolved london)].

(** On a browser without a geolocation service the mount goes straight to
    the fallback fetch; here that fetch has succeeded. *)
Definition no_service_online : Session :=
  Eval vm_compute in
    match steps (init false) [Mount; FetchSettled 0 (Resolved new_york)] with
    | Some w => w
    | None => init false
    end.

(** The failed session with "Try Again" clicked: the device is asked again
    while the message of the failure is still in [error]. *)
Definition retrying : Session :=
  Eval vm_compute in
    after [Mount; PositionFailed 0 "denied"; FetchSettled 0 (Rejected "offline");
           ClickTryAgain].

(** A fetch for London is started over it, the device refuses again, which
    starts the fallback fetch as well, and the fetch for London succeeds. *)
Definition london_loading : Session :=
  Eval vm_compute in
    match
      steps (run (fetchWeatherData 51.5%float (-0.125)%float) retrying)
        [PositionFailed 0 "denied"]
    with
    | Some w => w
    | None => retrying
    end.

Definition london_loaded : Session :=
  Eval vm_compute in
    match step london_loading (FetchSettled 0 (Resolved london)) with
    | Some w => w
    | None => london_loading
    end.

(** A suggestion of the location search. *)
Definition london_suggestion : LocationSuggestion :=
  {| suggestion_name := "London"; suggestion_country := "GB";
     suggestion_lat := 51.5%float; suggestion_lon := (-0.125)%float |}.

(** From the dashboard of New York, London is picked in the search. *)
Definition selecting : Session :=
  Eval vm_compute in
    after [Mount; PositionFailed 0 "denied"; FetchSettled 0 (Resolved new_york);
           SelectLocation london_suggestion].

(** From the dashboard of New York, "use my location" is clicked. *)
Definition locating : Session :=
  Eval vm_compute in
    after [Mount; PositionFailed 0 "denied"; FetchSettled 0 (Resolved new_york);
           ClickUseLocation].

(** ... and the device answers with the position of London. *)
Definition located : Session :=
  Eval vm_compute in
    after [Mount; PositionFailed 0 "denied"; FetchSettled 0 (Resolved new_york);
           ClickUseLocation; PositionAcquired 0 london_position].

(** New York as a provider that shouts would report it. *)
Definition new_york_shouted : @WeatherData unit unit :=
  {| location := location new_york;
     current := {| temperature := 21%float; condition := "CLEAR";
                   humidity := 40%float; windSpeed := 3%float |};
     forecast := [];
     alerts := [] |}.

(** Modelled from the spec: sample thresholds and texts for the insight
    engine; the specification leaves their values open. *)
Definition sample_settings : Settings :=
  {| heat_threshold := 30%float;
     wind_threshold := 10%float;
     humidity_threshold := 70%float;
     discomfort_temperature := 25%float;
     heat_message := "High heat: stay hydrated.";
     heat_severity := "warning";
     wind_message := "Windy: secure loose objects.";
     wind_severity := "info";
     discomfort_message := "Humid and warm: expect discomfort.";
     discomfort_severity := "info" |}.

Definition heat_wave : @WeatherData unit unit :=
  {| location := {| name := "Phoenix"; country := "US";
                    lat := 33.5%float; lon := (-112)%float |};
     current := {| temperature := 41%float; condition := "Clear";
                   humidity := 12%float; windSpeed := 4%float |};
     forecast := [];
     alerts := [] |}.

Definition full_report : @Report unit unit :=
  {| report_name := Some "London";
     report_country := Some "GB";
     report_lat := Some 51.5%float;
     report_lon := Some (-0.125)%float;
     report_temperature := Some 14%float;
     report_condition := Some "Rain";
     report_humidity := Some 80%float;
     report_wind := Some 6%float;
     report_forecast := Some [];
     report_alerts := Some [] |}.

Definition answering_transport : @Transport unit unit :=
  {| lookup := fun _ _ => Json full_report;
     search := fun _ => @TransportFailure _ |}.

(** * Properties of the controller *)

Section ControllerFacts.

Context {DailyForecast Alert JsError : Type}.

Implicit Types w : @World DailyForecast Alert JsError.
Implicit Types s : @AppState DailyForecast Alert.
Implicit Types x : @WeatherData DailyForecast Alert.
Implicit Types e : @Event DailyForecast Alert JsError.
Implicit Types r : @Result DailyForecast Alert JsError.
Implicit Types err : JsError.

(** ** What each handler does to the world *)

Lemma run_fetchWeatherData (lat lon : number) w :
  run (fetchWeatherData lat lon) w
  = park_fetch {| req_lat := lat; req_lon := lon; resume := fetch_resume |}
      (with_app (setError None) (with_app (setLoading true) w)).
Proof. reflexivity. Qed.

Lemma run_requestLocation w :
  run requestLocation w
  = if navigator_geolocation w
    then park_geo location_request w
    else run (fetchWeatherData DEFAULT_LATITUDE DEFAULT_LONGITUDE) w.
Proof.
  unfold requestLocation; cbn [run].
  destruct (navigator_geolocation w); reflexivity.
Qed.

Lemma run_resume_resolved x w :
  run (fetch_resume (Resolved x)) w
  = with_app (setLoading false)
      (with_app
         (setCurrentLocation
            (name (location x) ++ ", " ++ country (location x)))
         (with_app (setWeather (Some x)) w)).
Proof. reflexivity. Qed.

Lemma run_resume_rejected err w :
  run (fetch_resume (Rejected err)) w
  = with_app (setLoading false)
      (log_error "Weather fetch error:" err
         (with_app (setError (Some FETCH_FAILED)) w)).
Proof. reflexivity. Qed.

Lemma run_onError err w :
  run (onError location_request err) w
  = run (fetchWeatherData DEFAULT_LATITUDE DEFAULT_LONGITUDE)
      (log_error "Geolocation error:" err w).
Proof. reflexivity. Qed.

Lemma run_onSuccess (p : Position) w :
  run (onSuccess location_request p) w
  = run (fetchWeatherData (latitude p) (longitude p)) w.
Proof. reflexivity. Qed.

Lemma Forall_remove_nth {A : Type} (P : A -> Prop) (i : nat) (l : list A) :
  Forall P l -> Forall P (remove_nth i l).
Proof.
  intros H; revert i.
  induction H as [|a l Ha Hl IH]; intros [|i]; cbn; auto.
Qed.

Lemma nth_error_Forall {A : Type} (P : A -> Prop) (i : nat) (l : list A) (a : A) :
  Forall P l -> nth_error l i = Some a -> P a.
Proof.
  intros H Hn. rewrite Forall_forall in H.
  apply H. eapply nth_error_In; eassumption.
Qed.

(** ** The invariant of the reachable worlds *)

Lemma sound_init (geo : bool) :
  sound (init geo : @World DailyForecast Alert JsError).
Proof.
  repeat split; cbn; auto.
Qed.

Lemma sound_fetch (lat lon : number) w :
  parked_by_app w -> sound (run (fetchWeatherData lat lon) w).
Proof.
  intros [Hf Hg]. rewrite run_fetchWeatherData.
  repeat split; cbn; auto.
  apply Forall_app; split; auto.
Qed.

Lemma sound_requestLocation w : sound w -> sound (run requestLocation w).
Proof.
  intros Hs. rewrite run_requestLocation.
  destruct (navigator_geolocation w).
  - destruct Hs as [[Hf Hg] [Hl He]].
    repeat split; cbn; auto.
    apply Forall_app; split; auto.
  - apply sound_fetch, Hs.
Qed.

Lemma parked_take_geo (i : nat) w : parked_by_app w -> parked_by_app (take_geo i w).
Proof.
  intros [Hf Hg]; split; cbn; auto using Forall_remove_nth.
Qed.

Lemma parked_take_fetch (i : nat) w :
  parked_by_app w -> parked_by_app (take_fetch i w).
Proof.
  intros [Hf Hg]; split; cbn; auto using Forall_remove_nth.
Qed.

Lemma parked_log (l : string) err w :
  parked_by_app w -> parked_by_app (log_error l err w).
Proof. intros [Hf Hg]; split; cbn; auto. Qed.

Lemma step_sound w w' e : sound w -> step w e = Some w' -> sound w'.
Proof.
  intros Hs Hstep. pose proof Hs as [Hp [Hl He]].
  destruct e as [| | | |l|i p|i err|i r]; cbn [step] in Hstep.
  - inversion Hstep; subst. now apply sound_requestLocation.
  - destruct (render (app w)); inversion Hstep; subst.
    now apply sound_requestLocation.
  - destruct (render (app w)); inversion Hstep; subst.
    now apply sound_requestLocation.
  - destruct (render (app w)) as [| |c [|] o]; inversion Hstep; subst.
    destruct (weather (app w)); cbn [handleRefresh run]; auto.
    now apply sound_fetch.
  - destruct (render (app w)); inversion Hstep; subst.
    now apply sound_fetch.
  - destruct (nth_error (geo_pending w) i) as [g|] eqn:Hn; inversion Hstep; subst.
    pose proof (nth_error_Forall _ (proj2 Hp) Hn) as Hg; cbn beta in Hg; subst g.
    rewrite run_onSuccess.
    apply sound_fetch. now apply parked_take_geo.
  - destruct (nth_error (geo_pending w) i) as [g|] eqn:Hn; inversion Hstep; subst.
    pose proof (nth_error_Forall _ (proj2 Hp) Hn) as Hg; cbn beta in Hg; subst g.
    rewrite run_onError.
    apply sound_fetch. now apply parked_log, parked_take_geo.
  - destruct (nth_error (in_flight w) i) as [f|] eqn:Hn; inversion Hstep; subst.
    pose proof (nth_error_Forall _ (proj1 Hp) Hn) as Hf'; cbn beta in Hf'.
    rewrite Hf'.
    destruct r as [x|err].
    + rewrite run_resume_resolved.
      split; [|split]; cbn; auto; try discriminate.
      destruct Hp as [Hf Hg]; split; cbn; auto using Forall_remove_nth.
    + rewrite run_resume_rejected.
      split; [|split]; cbn; auto; try discriminate.
      destruct Hp as [Hf Hg]; split; cbn; auto using Forall_remove_nth.
Qed.

Lemma reachable_sound (geo : bool) w : reachable geo w -> sound w.
Proof.
  induction 1 as [|w w' e _ IH Hstep].
  - apply sound_init.
  - eapply step_sound; eassumption.
Qed.

Lemma steps_reachable (geo : bool) (es : list Event) w w' :
  reachable geo w -> steps w es = Some w' -> reachable geo w'.
Proof.
  revert w. induction es as [|e es IH]; intros w Hr Hs; cbn [steps] in Hs.
  - inversion Hs; subst; assumption.
  - destruct (step w e) as [w1|] eqn:He; [|discriminate].
    apply (IH w1); [|assumption].
    eapply reachable_step; eassumption.
Qed.

(** Reads off the world that a step produced, when it produced one. *)
Ltac stepped H :=
  try discriminate H;
  match type of H with
  | Some ?a = Some ?b =>
      let E := fresh "E" in
      assert (E : b = a) by congruence; clear H; subst b
  end.

Lemma step_keeps_weather w w' e :
  sound w -> step w e = Some w' ->
  is_some (weather (app w)) = true -> is_some (weather (app w')) = true.
Proof.
  intros [Hp _] Hstep Hw.
  destruct e as [| | | |l|i p|i err|i r]; unfold step in Hstep.
  - stepped Hstep. rewrite run_requestLocation.
    destruct (navigator_geolocation w); exact Hw.
  - destruct (render (app w)); stepped Hstep.
    rewrite run_requestLocation.
    destruct (navigator_geolocation w); exact Hw.
  - destruct (render (app w)); stepped Hstep.
    rewrite run_requestLocation.
    destruct (navigator_geolocation w); exact Hw.
  - destruct (render (app w)) as [| |c [|] o]; stepped Hstep.
    destruct (weather (app w)) eqn:Ew; [|discriminate].
    cbn [handleRefresh]; rewrite run_fetchWeatherData; cbn.
    now rewrite Ew.
  - destruct (render (app w)); stepped Hstep. exact Hw.
  - destruct (nth_error (geo_pending w) i) as [g|] eqn:Hn; stepped Hstep.
    pose proof (nth_error_Forall _ (proj2 Hp) Hn) as Hg; cbn beta in Hg; subst g.
    exact Hw.
  - destruct (nth_error (geo_pending w) i) as [g|] eqn:Hn; stepped Hstep.
    pose proof (nth_error_Forall _ (proj2 Hp) Hn) as Hg; cbn beta in Hg; subst g.
    exact Hw.
  - destruct (nth_error (in_flight w) i) as [f|] eqn:Hn; stepped Hstep.
    pose proof (nth_error_Forall _ (proj1 Hp) Hn) as Hf; cbn beta in Hf.
    rewrite Hf. destruct r; [reflexivity | exact Hw].
Qed.

Lemma steps_keep_weather (es : list Event) w w' :
  sound w -> steps w es = Some w' ->
  is_some (weather (app w)) = true -> is_some (weather (app w')) = true.
Proof.
  revert w. induction es as [|e es IH]; intros w Hs Hsteps Hw; cbn [steps] in Hsteps.
  - inversion Hsteps; subst; exact Hw.
  - destruct (step w e) as [w1|] eqn:He; [|discriminate].
    apply (IH w1); eauto using step_sound, step_keeps_weather.
Qed.

Lemma step_keeps_no_error w w' e :
  sound w -> step w e = Some w' -> is_rejection e = false ->
  error (app w) = None -> error (app w') = None.
Proof.
  intros [Hp _] Hstep Hrej Herr.
  destruct e as [| | | |l|i p|i err|i r]; unfold step in Hstep.
  - stepped Hstep. rewrite run_requestLocation.
    destruct (navigator_geolocation w); [exact Herr | reflexivity].
  - destruct (render (app w)); stepped Hstep.
    rewrite run_requestLocation.
    destruct (navigator_geolocation w); [exact Herr | reflexivity].
  - destruct (render (app w)); stepped Hstep.
    rewrite run_requestLocation.
    destruct (navigator_geolocation w); [exact Herr | reflexivity].
  - destruct (render (app w)) as [| |c [|] o]; stepped Hstep.
    destruct (weather (app w)) eqn:Ew; [reflexivity | exact Herr].
  - destruct (render (app w)); stepped Hstep. reflexivity.
  - destruct (nth_error (geo_pending w) i) as [g|] eqn:Hn; stepped Hstep.
    pose proof (nth_error_Forall _ (proj2 Hp) Hn) as Hg; cbn beta in Hg; subst g.
    reflexivity.
  - destruct (nth_error (geo_pending w) i) as [g|] eqn:Hn; stepped Hstep.
    pose proof (nth_error_Forall _ (proj2 Hp) Hn) as Hg; cbn beta in Hg; subst g.
    reflexivity.
  - destruct (nth_error (in_flight w) i) as [f|] eqn:Hn; stepped Hstep.
    pose proof (nth_error_Forall _ (proj1 Hp) Hn) as Hf; cbn beta in Hf.
    rewrite Hf. destruct r; [exact Herr | discriminate].
Qed.

Lemma steps_keep_no_error (es : list Event) w w' :
  sound w -> steps w es = Some w' ->
  forallb (fun e => negb (is_rejection e)) es = true ->
  error (app w) = None -> sound w' /\ error (app w') = None.
Proof.
  revert w. induction es as [|e es IH]; intros w Hs Hsteps Hno Herr;
    cbn [steps] in Hsteps; cbn [forallb] in Hno.
  - inversion Hsteps; subst; auto.
  - destruct (step w e) as [w1|] eqn:He; [|discriminate].
    apply andb_true_iff in Hno as [Hno1 Hno2].
    apply negb_true_iff in Hno1.
    apply (IH w1); eauto using step_sound, step_keeps_no_error.
Qed.

Lemma render_error_screen s (m : option string) :
  render s = ErrorScreen m ->
  weather s = None /\ m = error s /\ truthy (error s) = true /\ loading s = false.
Proof.
  unfold render. destruct (loading s); [discriminate|].
  destruct (truthy (error s)) eqn:Ht; cbn [andb]; [|discriminate].
  destruct (weather s); cbn [is_some negb]; [discriminate|].
  intros H; inversion H; auto.
Qed.

Lemma nth_error_last {A : Type} (l : list A) (a : A) :
  nth_error (l ++ [a]) (List.length l) = Some a.
Proof.
  rewrite nth_error_app2 by apply Nat.le_refl.
  now rewrite Nat.sub_diag.
Qed.

(** ** The claims about the controller *)

(** C9.  Starting a fetch sets [loading] and clears [error] at once, while
    the request is still in flight and the held weather is untouched; and
    in every world the component can reach, a set [loading] flag comes with
    a null [error]. *)
Theorem fetch_start_clears_error :
  (forall (lat lon : number) w,
      loading (app (run (fetchWeatherData lat lon) w)) = true
      /\ error (app (run (fetchWeatherData lat lon) w)) = None
      /\ weather (app (run (fetchWeatherData lat lon) w)) = weather (app w)
      /\ map coordinates (in_flight (run (fetchWeatherData lat lon) w))
         = map coordinates (in_flight w) ++ [(lat, lon)])
  /\ (forall (geo : bool) w,
        reachable geo w -> loading (app w) = true -> error (app w) = None).
Proof.
  split.
  - intros lat lon w. rewrite run_fetchWeatherData; cbn.
    repeat split. now rewrite map_app.
  - intros geo w Hr. apply (reachable_sound Hr).
Qed.

(** C10.  With no weather held, the refresh handler does nothing: the world
    after it is the world before it, so no fetch is issued and [weather],
    [loading], [error] and [currentLocation] keep their values. *)
Theorem refresh_without_weather_is_noop w :
  weather (app w) = None ->
  run (handleRefresh (weather (app w))) w = w
  /\ (forall w', step w ClickRefresh = Some w' -> w' = w).
Proof.
  intros Hw. split.
  - now rewrite Hw.
  - intros w' Hstep. unfold step in Hstep.
    destruct (render (app w)) as [| |c [|] o]; stepped Hstep.
    now rewrite Hw.
Qed.

(** C4.  A click on refresh has an effect only when weather is held, and
    then the dashboard is in its ready state and the fetch that is issued
    carries exactly the latitude and longitude stored in that weather. *)
Theorem refresh_refetches_held_coordinates w w' :
  step w ClickRefresh = Some w' ->
  match weather (app w) with
  | Some x =>
      phase (app w) = Ready
      /\ w' = run (fetchWeatherData (lat (location x)) (lon (location x))) w
      /\ map coordinates (in_flight w')
         = map coordinates (in_flight w)
             ++ [(lat (location x), lon (location x))]
      /\ weather (app w') = Some x
  | None => w' = w
  end.
Proof.
  intros Hstep. unfold step in Hstep.
  destruct (render (app w)) as [| |c [|] o] eqn:Hrender; stepped Hstep.
  destruct (weather (app w)) as [x|] eqn:Hw; cbn [handleRefresh run];
    [|reflexivity].
  repeat split.
  - unfold phase. rewrite Hrender.
    unfold render in Hrender. rewrite Hw in Hrender.
    destruct (loading (app w)); [discriminate|].
    rewrite andb_false_r in Hrender. now inversion Hrender.
  - rewrite run_fetchWeatherData; cbn. now rewrite map_app.
  - rewrite run_fetchWeatherData; cbn. exact Hw.
Qed.

(** C2.  The blocking error screen is rendered only when no weather is
    held.  A fetch that fails while weather is held leaves that weather as
    it was, records the failure in the separate [error] field and on the
    console, and the dashboard with the stale weather is what is rendered;
    once weather is held, no later event brings the error screen back. *)
Theorem failed_fetch_keeps_stale_weather :
  (forall s (m : option string), render s = ErrorScreen m -> weather s = None)
  /\ (forall (geo : bool) w (i : nat) err w' x,
        reachable geo w ->
        weather (app w) = Some x ->
        step w (FetchSettled i (Rejected err)) = Some w' ->
        weather (app w') = Some x
        /\ error (app w') = Some FETCH_FAILED
        /\ console w' = console w ++ [("Weather fetch error:", err)]
        /\ render (app w')
           = Dashboard (currentLocation (app w)) false (Some x)
        /\ forall (es : list Event) w'' (m : option string),
             steps w' es = Some w'' -> render (app w'') <> ErrorScreen m).
Proof.
  split.
  - intros s m H. apply render_error_screen in H. apply H.
  - intros geo w i err w' x Hr Hw Hstep.
    pose proof (reachable_sound Hr) as Hs.
    pose proof (step_sound _ Hs Hstep) as Hs'.
    unfold step in Hstep.
    destruct (nth_error (in_flight w) i) as [f|] eqn:Hn; stepped Hstep.
    pose proof (nth_error_Forall _ (proj1 (proj1 Hs)) Hn) as Hf; cbn beta in Hf.
    rewrite Hf in *. rewrite run_resume_rejected in *. cbn.
    rewrite Hw. repeat split.
    intros es w'' m Hsteps Hrender.
    apply render_error_screen in Hrender as [Hnone _].
    assert (Hheld : is_some (weather (app w'')) = true).
    { eapply steps_keep_weather; [exact Hs' | exact Hsteps |].
      cbn. now rewrite Hw. }
    rewrite Hnone in Hheld. discriminate.
Qed.

(** C3, amended.  A fetch that succeeds stores the returned weather in place
    of whatever was held, sets the location label from it and clears
    [loading], so the controller is ready.  The completion does not write
    [error]: the field was cleared when the fetch started, and it is still
    null at the completion when no fetch has failed in between. *)
Theorem successful_fetch_stores_weather (geo : bool) w :
  reachable geo w ->
  (forall (i : nat) x w',
      step w (FetchSettled i (Resolved x)) = Some w' ->
      weather (app w') = Some x
      /\ currentLocation (app w')
         = (name (location x) ++ ", " ++ country (location x))%string
      /\ loading (app w') = false
      /\ error (app w') = error (app w)
      /\ phase (app w') = Ready)
  /\ (forall (lat lon : number) (es : list Event) w1 (i : nat) x w2,
        steps (run (fetchWeatherData lat lon) w) es = Some w1 ->
        forallb (fun e => negb (is_rejection e)) es = true ->
        step w1 (FetchSettled i (Resolved x)) = Some w2 ->
        error (app w2) = None).
Proof.
  intros Hr. pose proof (reachable_sound Hr) as Hs.
  assert (Hsettle : forall w0 (i : nat) x w',
             sound w0 -> step w0 (FetchSettled i (Resolved x)) = Some w' ->
             w' = run (fetch_resume (Resolved x)) (take_fetch i w0)).
  { intros w0 i x w' Hs0 Hstep. unfold step in Hstep.
    destruct (nth_error (in_flight w0) i) as [f|] eqn:Hn; stepped Hstep.
    pose proof (nth_error_Forall _ (proj1 (proj1 Hs0)) Hn) as Hf; cbn beta in Hf.
    now rewrite Hf. }
  split.
  - intros i x w' Hstep. rewrite (Hsettle _ _ _ _ Hs Hstep).
    rewrite run_resume_resolved. cbn. repeat split.
    unfold phase, render; cbn. now rewrite andb_false_r.
  - intros lat lon es w1 i x w2 Hsteps Hno Hstep.
    destruct (steps_keep_no_error es (sound_fetch lat lon (proj1 Hs)) Hsteps Hno)
      as [Hs1 Herr]; [reflexivity|].
    rewrite (Hsettle _ _ _ _ Hs1 Hstep), run_resume_resolved. cbn.
    exact Herr.
Qed.

(** C1.  When the geolocation request fails, or the browser has no
    geolocation service, the controller fetches the weather of the fixed
    coordinates (40.7128, -74.0060), and with the answer to that fetch it is
    ready with the weather that was returned.  The geolocation error goes to
    the console and never into [error], which holds null or the message of a
    failed weather fetch.  With the device as the only thing that fails, that
    is through any events among which no weather request is rejected,
    [error] stays null and the error screen is never rendered. *)
Theorem geolocation_failure_falls_back (geo : bool) w :
  reachable geo w ->
  (forall (i : nat) err w1,
      step w (PositionFailed i err) = Some w1 ->
      map coordinates (in_flight w1)
      = map coordinates (in_flight w) ++ [(DEFAULT_LATITUDE, DEFAULT_LONGITUDE)]
      /\ console w1 = console w ++ [("Geolocation error:", err)]
      /\ loading (app w1) = true
      /\ error (app w1) = None
      /\ forall x, exists w2,
           step w1 (FetchSettled (List.length (in_flight w)) (Resolved x))
           = Some w2
           /\ weather (app w2) = Some x
           /\ error (app w2) = None
           /\ phase (app w2) = Ready)
  /\ (navigator_geolocation w = false ->
      map coordinates (in_flight (run requestLocation w))
      = map coordinates (in_flight w) ++ [(DEFAULT_LATITUDE, DEFAULT_LONGITUDE)]
      /\ console (run requestLocation w) = console w
      /\ forall x, exists w2,
           step (run requestLocation w)
             (FetchSettled (List.length (in_flight w)) (Resolved x))
           = Some w2
           /\ weather (app w2) = Some x
           /\ error (app w2) = None
           /\ phase (app w2) = Ready)
  /\ (error (app w) = None \/ error (app w) = Some FETCH_FAILED)
  /\ (forall (i : nat) err w1 (es : list Event) w',
        step w (PositionFailed i err) = Some w1 ->
        steps w1 es = Some w' ->
        forallb (fun e => negb (is_rejection e)) es = true ->
        error (app w') = None
        /\ phase (app w') <> Failed
        /\ forall (m : option string), render (app w') <> ErrorScreen m)
  /\ (navigator_geolocation w = false ->
      forall (es : list Event) w',
        steps (run requestLocation w) es = Some w' ->
        forallb (fun e => negb (is_rejection e)) es = true ->
        error (app w') = None
        /\ phase (app w') <> Failed
        /\ forall (m : option string), render (app w') <> ErrorScreen m).
Proof.
  intros Hr. pose proof (reachable_sound Hr) as Hs.
  assert (Hcalm : forall s, error s = None ->
             error s = None
             /\ phase s <> Failed
             /\ forall (m : option string), render s <> ErrorScreen m).
  { intros s Herr.
    assert (Hview : forall (m : option string), render s <> ErrorScreen m).
    { intros m. unfold render. rewrite Herr.
      destruct (loading s); cbn; discriminate. }
    split; [exact Herr|]. split; [|exact Hview].
    unfold phase. destruct (render s) as [|m|c d [x|]] eqn:Hrender;
      try discriminate.
    exfalso. exact (Hview m eq_refl). }
  split; [|split; [|split; [|split]]].
  - intros i err w1 Hstep. unfold step in Hstep.
    destruct (nth_error (geo_pending w) i) as [g|] eqn:Hn; stepped Hstep.
    pose proof (nth_error_Forall _ (proj2 (proj1 Hs)) Hn) as Hg; cbn beta in Hg.
    subst g. rewrite run_onError, run_fetchWeatherData. cbn.
    repeat split.
    + now rewrite map_app.
    + intros x. eexists. unfold step; cbn.
      rewrite nth_error_last. cbn [resume].
      rewrite run_resume_resolved. split; [reflexivity|].
      cbn. repeat split.
  - intros Hgeo. rewrite run_requestLocation, Hgeo, run_fetchWeatherData. cbn.
    repeat split.
    + now rewrite map_app.
    + intros x. eexists. unfold step; cbn.
      rewrite nth_error_last. cbn [resume].
      rewrite run_resume_resolved. split; [reflexivity|].
      cbn. repeat split.
  - apply Hs.
  - intros i err w1 es w' Hstep Hsteps Hno.
    pose proof (step_sound _ Hs Hstep) as Hs1.
    assert (Herr1 : error (app w1) = None).
    { unfold step in Hstep.
      destruct (nth_error (geo_pending w) i) as [g|] eqn:Hn; stepped Hstep.
      pose proof (nth_error_Forall _ (proj2 (proj1 Hs)) Hn) as Hg;
        cbn beta in Hg.
      subst g. reflexivity. }
    apply Hcalm.
    exact (proj2 (steps_keep_no_error es Hs1 Hsteps Hno Herr1)).
  - intros Hgeo es w' Hsteps Hno.
    apply Hcalm.
    refine (proj2 (steps_keep_no_error es (sound_requestLocation Hs)
                     Hsteps Hno _)).
    rewrite run_requestLocation, Hgeo. reflexivity.
Qed.

End ControllerFacts.

(** * Properties of the weather client *)

Section WeatherClientFacts.

Context {DailyForecast Alert : Type}.

Implicit Types t : @Transport DailyForecast Alert.
Implicit Types report : @Report DailyForecast Alert.
Implicit Types x : @WeatherData DailyForecast Alert.

Lemma bind_option_some {A B : Type} (o : option A) (f : A -> option B) (b : B) :
  bind_option o f = Some b -> exists a, o = Some a /\ f a = Some b.
Proof.
  destruct o as [a|]; cbn; [|discriminate].
  intros H; exists a; auto.
Qed.

(** A report is normalized only when none of its fields is missing, and then
    every field of the weather is the field of the report. *)
Lemma normalize_some report x :
  normalize report = Some x ->
  report_name report = Some (name (location x))
  /\ report_country report = Some (country (location x))
  /\ report_lat report = Some (lat (location x))
  /\ report_lon report = Some (lon (location x))
  /\ report_temperature report = Some (temperature (current x))
  /\ report_condition report = Some (condition (current x))
  /\ report_humidity report = Some (humidity (current x))
  /\ report_wind report = Some (windSpeed (current x))
  /\ report_forecast report = Some (forecast x)
  /\ report_alerts report = Some (alerts x).
Proof.
  unfold normalize. intros H.
  repeat (apply bind_option_some in H; destruct H as [? [-> H]]).
  inversion H; subst; cbn. repeat split.
Qed.

(** C6.  For valid coordinates and any behaviour of the network layer,
    [fetchByCoordinates] makes one lookup and then either returns weather
    every field of which, [lat] and [lon] of the location among them, was
    present in the provider's report, or fails with [NetworkError],
    [ParseError] or [NotFoundError]. *)
Theorem fetchByCoordinates_all_or_nothing t (latitude longitude : number) :
  valid_coordinates latitude longitude = true ->
  snd (run_net t (fetchByCoordinates latitude longitude)) = [ByCoordinates latitude longitude]
  /\ match fst (run_net t (fetchByCoordinates latitude longitude)) with
     | inr x =>
         exists report,
           lookup t latitude longitude = Json report
           /\ normalize report = Some x
           /\ report_lat report = Some (lat (location x))
           /\ report_lon report = Some (lon (location x))
           /\ report_name report = Some (name (location x))
           /\ report_country report = Some (country (location x))
           /\ report_temperature report = Some (temperature (current x))
           /\ report_condition report = Some (condition (current x))
           /\ report_humidity report = Some (humidity (current x))
           /\ report_wind report = Some (windSpeed (current x))
           /\ report_forecast report = Some (forecast x)
           /\ report_alerts report = Some (alerts x)
     | inl failure =>
         failure = NetworkError \/ failure = ParseError
         \/ failure = NotFoundError
     end.
Proof.
  intros _. unfold fetchByCoordinates. cbn [run_net fst snd].
  split; [reflexivity|].
  destruct (lookup t latitude longitude) as [| | |report] eqn:Hlookup; auto.
  destruct (normalize report) as [x|] eqn:Hnorm; auto.
  exists report. split; [reflexivity|]. split; [assumption|].
  apply normalize_some in Hnorm. intuition.
Qed.

(** C8.  On the empty string and on a string of white space only,
    [fetchByQuery] returns the empty sequence at once: no call reaches the
    network layer, whatever that layer would have answered. *)
Theorem fetchByQuery_blank_makes_no_call t (text : string) :
  is_blank text = true ->
  fetchByQuery (DailyForecast := DailyForecast) (Alert := Alert) text
  = Return (inr [])
  /\ run_net t (fetchByQuery text) = (inr [], []).
Proof.
  intros Hblank. unfold fetchByQuery. rewrite Hblank. split; reflexivity.
Qed.

End WeatherClientFacts.

(** * Properties of the insight engine *)

Section InsightEngineFacts.

Context {DailyForecast Alert : Type}.

Implicit Types w : @WeatherData DailyForecast Alert.
Implicit Types rules : list (@Rule DailyForecast Alert).

Lemma evaluate_filter rules w :
  evaluate rules w
  = map (fun rule => template rule w)
      (filter (fun rule => predicate rule w) rules).
Proof.
  induction rules as [|rule rest IH]; cbn; [reflexivity|].
  destruct (predicate rule w); cbn; now rewrite IH.
Qed.

(** C5.  The insight engine is a function of the weather alone: equal
    weather gives equal sequences.  Each rule of the table is tried on its
    own and contributes when it matches, in the order of the table: heat,
    then wind, then discomfort. *)
Theorem generateAIInsights_deterministic (settings : Settings) :
  (forall w1 w2, w1 = w2 ->
     generateAIInsights settings w1 = generateAIInsights settings w2)
  /\ (forall w,
       generateAIInsights settings w
       = (if hot settings w then [heat_insight settings] else [])
         ++ (if windy settings w then [wind_insight settings] else [])
         ++ (if muggy settings w then [discomfort_insight settings] else []))
  /\ (forall rules w,
       evaluate rules w
       = map (fun rule => template rule w)
           (filter (fun rule => predicate rule w) rules)).
Proof.
  split; [|split].
  - intros w1 w2 ->. reflexivity.
  - intros w. unfold generateAIInsights, rule_table.
    cbn [evaluate predicate template].
    destruct (hot settings w), (windy settings w), (muggy settings w);
      reflexivity.
  - apply evaluate_filter.
Qed.

(** C7.  When the temperature is above the heat threshold and no rule of
    another category matches, the engine returns the heat insight and
    nothing else, so exactly one insight of category "heat". *)
Theorem heat_alone_gives_one_heat_insight (settings : Settings) w :
  (heat_threshold settings <? temperature (current w))%float = true ->
  (forall rule, In rule (rule_table settings) ->
     category (template rule w) <> "heat" -> predicate rule w = false) ->
  generateAIInsights settings w = [heat_insight settings]
  /\ count_category "heat" (generateAIInsights settings w) = 1.
Proof.
  intros Hhot Hothers.
  assert (Hwindy : windy settings w = false).
  { apply (Hothers {| predicate := windy settings;
                      template := fun _ => wind_insight settings |}).
    - cbn; auto.
    - cbn; discriminate. }
  assert (Hmuggy : muggy settings w = false).
  { apply (Hothers {| predicate := muggy settings;
                      template := fun _ => discomfort_insight settings |}).
    - cbn; auto.
    - cbn; discriminate. }
  assert (Hgen : generateAIInsights settings w = [heat_insight settings]).
  { unfold generateAIInsights, rule_table.
    cbn [evaluate predicate template].
    fold (hot settings w) in Hhot. now rewrite Hhot, Hwindy, Hmuggy. }
  split; [exact Hgen|].
  rewrite Hgen. reflexivity.
Qed.

End InsightEngineFacts.

(** * The scenarios, checked *)

Lemma reachable_session (es : list (@Event unit unit string)) (w : Session) :
  steps (init true) es = Some w -> reachable true w.
Proof. exact (steps_reachable es (reachable_init true)). Qed.

Lemma mounted_reachable : reachable true mounted.
Proof. apply (reachable_session [Mount]). vm_compute. reflexivity. Qed.

Lemma denied_reachable : reachable true denied.
Proof.
  apply (reachable_step (PositionFailed 0 "denied") mounted_reachable).
  vm_compute. reflexivity.
Qed.

Lemma denied_offline_reachable : reachable true denied_offline.
Proof.
  apply (reachable_step (FetchSettled 0 (Rejected "offline")) denied_reachable).
  vm_compute. reflexivity.
Qed.

Lemma retrying_reachable : reachable true retrying.
Proof.
  apply (reachable_step ClickTryAgain denied_offline_reachable).
  vm_compute. reflexivity.
Qed.

Lemma retried_reachable : reachable true retried.
Proof.
  apply (reachable_step (PositionFailed 0 "denied") retrying_reachable).
  vm_compute. reflexivity.
Qed.

Lemma denied_online_reachable : reachable true denied_online.
Proof.
  apply (reachable_step (FetchSettled 0 (Resolved new_york)) denied_reachable).
  vm_compute. reflexivity.
Qed.

Lemma refreshing_reachable : reachable true refreshing.
Proof.
  apply (reachable_step (ClickRefresh) denied_online_reachable).
  vm_compute. reflexivity.
Qed.

Lemma overlapping_reachable : reachable true overlapping.
Proof.
  apply (steps_reachable
           [ClickUseLocation; ClickUseLocation;
            PositionAcquired 0 london_position;
            PositionAcquired 0 london_position;
            FetchSettled 0 (Rejected "offline")]
           denied_online_reachable).
  vm_compute. reflexivity.
Qed.

Lemma fetch_start_clears_error_witness :
  reachable true retried
  /\ error (app denied_offline) = Some FETCH_FAILED
  /\ loading (app retried) = true
  /\ error (app retried) = None.
Proof.
  split; [exact retried_reachable|].
  split; [reflexivity|]. split; [reflexivity|].
  exact (proj2 fetch_start_clears_error true retried retried_reachable eq_refl).
Defined.

Lemma refresh_without_weather_is_noop_witness :
  weather (app mounted) = None
  /\ run (handleRefresh (weather (app mounted))) mounted = mounted.
Proof.
  split; [reflexivity|].
  exact (proj1 (refresh_without_weather_is_noop mounted eq_refl)).
Defined.

Lemma refresh_refetches_held_coordinates_witness :
  step denied_online ClickRefresh = Some refreshing
  /\ phase (app denied_online) = Ready
  /\ map coordinates (in_flight refreshing)
     = [(lat (location new_york), lon (location new_york))].
Proof.
  assert (Hstep : step denied_online ClickRefresh = Some refreshing)
    by (vm_compute; reflexivity).
  destruct (refresh_refetches_held_coordinates denied_online Hstep)
    as [Hphase [_ [Hcoords _]]].
  split; [exact Hstep|]. split; [exact Hphase | exact Hcoords].
Defined.

Lemma failed_fetch_keeps_stale_weather_witness :
  render (app denied_offline) = ErrorScreen (Some FETCH_FAILED)
  /\ weather (app denied_offline) = None
  /\ reachable true refreshing
  /\ weather (app refreshing) = Some new_york
  /\ step refreshing (FetchSettled 0 (Rejected "offline")) = Some refresh_failed
  /\ weather (app refresh_failed) = Some new_york
  /\ error (app refresh_failed) = Some FETCH_FAILED
  /\ render (app refresh_failed)
     = Dashboard "New York, US" false (Some new_york).
Proof.
  assert (Hstep : step refreshing (FetchSettled 0 (Rejected "offline"))
                  = Some refresh_failed)
    by (vm_compute; reflexivity).
  destruct (proj2 failed_fetch_keeps_stale_weather true refreshing 0 "offline"
              refresh_failed new_york refreshing_reachable eq_refl Hstep)
    as [Hw [Herror [_ [Hrender _]]]].
  split; [reflexivity|].
  split; [exact (proj1 (failed_fetch_keeps_stale_weather (JsError := string))
                   (app denied_offline) (Some FETCH_FAILED) eq_refl)|].
  split; [exact refreshing_reachable|]. split; [reflexivity|].
  split; [exact Hstep|]. split; [exact Hw|].
  split; [exact Herror | exact Hrender].
Defined.

Lemma successful_fetch_stores_weather_witness :
  reachable true denied
  /\ step denied (FetchSettled 0 (Resolved new_york)) = Some denied_online
  /\ weather (app denied_online) = Some new_york
  /\ loading (app denied_online) = false
  /\ error (app denied_online) = None
  /\ phase (app denied_online) = Ready
  /\ reachable true retrying
  /\ error (app retrying) = Some FETCH_FAILED
  /\ steps (run (fetchWeatherData 51.5%float (-0.125)%float) retrying)
       [PositionFailed 0 "denied"]
     = Some london_loading
  /\ step london_loading (FetchSettled 0 (Resolved london))
     = Some london_loaded
  /\ error (app london_loaded) = None.
Proof.
  assert (Hsteps : steps (run (fetchWeatherData 51.5%float (-0.125)%float)
                            retrying)
                     [PositionFailed 0 "denied"]
                   = Some london_loading)
    by (vm_compute; reflexivity).
  assert (Hlast : step london_loading (FetchSettled 0 (Resolved london))
                  = Some london_loaded)
    by (vm_compute; reflexivity).
  pose proof (proj2 (successful_fetch_stores_weather retrying_reachable)
                51.5%float (-0.125)%float [PositionFailed 0 "denied"]
                london_loading 0 london london_loaded Hsteps eq_refl Hlast)
    as Hclear.
  assert (Hstep : step denied (FetchSettled 0 (Resolved new_york))
                  = Some denied_online)
    by (vm_compute; reflexivity).
  destruct (proj1 (successful_fetch_stores_weather denied_reachable)
              0 new_york denied_online Hstep)
    as [Hw [_ [Hl [Herror Hphase]]]].
  split; [exact denied_reachable|]. split; [exact Hstep|].
  split; [exact Hw|]. split; [exact Hl|].
  split; [exact Herror|]. split; [exact Hphase|].
  split; [exact retrying_reachable|]. split; [reflexivity|].
  split; [exact Hsteps|]. split; [exact Hlast | exact Hclear].
Defined.

Lemma geolocation_failure_falls_back_witness :
  reachable true mounted
  /\ step mounted (PositionFailed 0 "denied") = Some denied
  /\ map coordinates (in_flight denied)
     = [(DEFAULT_LATITUDE, DEFAULT_LONGITUDE)]
  /\ console denied = [("Geolocation error:", "denied")]
  /\ error (app denied) = None
  /\ navigator_geolocation (init false : Session) = false
  /\ map coordinates (in_flight (run requestLocation (init false : Session)))
     = [(DEFAULT_LATITUDE, DEFAULT_LONGITUDE)]
  /\ step (run requestLocation (init false : Session))
       (FetchSettled 0 (Resolved new_york))
     = Some no_service_online
  /\ phase (app no_service_online) = Ready
  /\ steps denied [FetchSettled 0 (Resolved new_york)] = Some denied_online
  /\ phase (app denied_online) <> Failed
  /\ steps (run requestLocation (init false : Session))
       [FetchSettled 0 (Resolved new_york)]
     = Some no_service_online
  /\ phase (app no_service_online) <> Failed.
Proof.
  assert (Hanswered : steps denied [FetchSettled 0 (Resolved new_york)]
                      = Some denied_online)
    by (vm_compute; reflexivity).
  assert (Hanswered' : steps (run requestLocation (init false : Session))
                         [FetchSettled 0 (Resolved new_york)]
                       = Some no_service_online)
    by (vm_compute; reflexivity).
  destruct (proj1 (proj2 (geolocation_failure_falls_back
                            (reachable_init false : reachable false
                                                      (init false : Session))))
              eq_refl)
    as [Hfallback [_ Hready]].
  destruct (Hready new_york) as [w2 [Hstep2 [_ [_ Hphase2]]]].
  assert (Hlast : step (run requestLocation (init false : Session))
                    (FetchSettled 0 (Resolved new_york))
                  = Some no_service_online)
    by (vm_compute; reflexivity).
  assert (Hsame : w2 = no_service_online).
  { change (List.length (in_flight (init false : Session))) with 0 in Hstep2.
    congruence. }
  rewrite Hsame in Hphase2.
  assert (Hstep : step mounted (PositionFailed 0 "denied") = Some denied)
    by (vm_compute; reflexivity).
  destruct (proj1 (geolocation_failure_falls_back mounted_reachable)
              0 "denied" denied Hstep)
    as [Hcoords [Hconsole [_ [Herror _]]]].
  split; [exact mounted_reachable|]. split; [exact Hstep|].
  split; [exact Hcoords|]. split; [exact Hconsole|].
  split; [exact Herror|]. split; [reflexivity|].
  split; [exact Hfallback|]. split; [exact Hlast|].
  split; [exact Hphase2|]. split; [exact Hanswered|].
  split.
  { exact (proj1 (proj2
             (proj1 (proj2 (proj2 (proj2
                (geolocation_failure_falls_back mounted_reachable))))
                0 "denied" denied [FetchSettled 0 (Resolved new_york)]
                denied_online Hstep Hanswered eq_refl))). }
  split; [exact Hanswered'|].
  exact (proj1 (proj2
           (proj2 (proj2 (proj2 (proj2
              (geolocation_failure_falls_back
                 (reachable_init false : reachable false
                                           (init false : Session))))))
              eq_refl [FetchSettled 0 (Resolved new_york)]
              no_service_online Hanswered' eq_refl))).
Defined.

(** C3, as worded, fails: two fetches overlap, the first one fails and the
    second one succeeds; the weather of the second is stored while [error]
    still holds the message of the first. *)
Lemma success_can_leave_an_error :
  steps (init true)
    [Mount; PositionFailed 0 "denied"; FetchSettled 0 (Resolved new_york);
     ClickUseLocation; ClickUseLocation;
     PositionAcquired 0 london_position;
     PositionAcquired 0 london_position;
     FetchSettled 0 (Rejected "offline");
     FetchSettled 0 (Resolved london)]
  = Some overlapped
  /\ weather (app overlapped) = Some london
  /\ error (app overlapped) = Some FETCH_FAILED
  /\ ~ success_leaves_no_error
        (DailyForecast := unit) (Alert := unit) (JsError := string) true.
Proof.
  split; [vm_compute; reflexivity|].
  split; [reflexivity|]. split; [reflexivity|].
  intros H.
  assert (Hstep : step overlapping (FetchSettled 0 (Resolved london))
                  = Some overlapped)
    by (vm_compute; reflexivity).
  destruct (H overlapping overlapped 0 london overlapping_reachable Hstep)
    as [_ [Herror _]].
  discriminate Herror.
Qed.
Lemma fetchByCoordinates_all_or_nothing_witness :
  valid_coordinates DEFAULT_LATITUDE DEFAULT_LONGITUDE = true
  /\ snd (run_net answering_transport
            (fetchByCoordinates DEFAULT_LATITUDE DEFAULT_LONGITUDE))
     = [ByCoordinates DEFAULT_LATITUDE DEFAULT_LONGITUDE]
  /\ fst (run_net answering_transport
            (fetchByCoordinates DEFAULT_LATITUDE DEFAULT_LONGITUDE))
     = inr london.
Proof.
  split; [reflexivity|].
  split; [|reflexivity].
  apply (fetchByCoordinates_all_or_nothing answering_transport
           DEFAULT_LATITUDE DEFAULT_LONGITUDE).
  reflexivity.
Defined.

Lemma fetchByQuery_blank_makes_no_call_witness :
  is_blank (String "009" (String " " (String "010" ""))) = true
  /\ run_net answering_transport
       (fetchByQuery (String "009" (String " " (String "010" ""))))
     = (inr [], []).
Proof.
  split; [reflexivity|].
  apply (fetchByQuery_blank_makes_no_call answering_transport).
  reflexivity.
Defined.

Lemma generateAIInsights_deterministic_witness :
  generateAIInsights sample_settings heat_wave
  = generateAIInsights sample_settings heat_wave.
Proof.
  apply (proj1 (generateAIInsights_deterministic sample_settings)
           heat_wave heat_wave).
  reflexivity.
Defined.

Lemma heat_alone_gives_one_heat_insight_witness :
  (heat_threshold sample_settings <? temperature (current heat_wave))%float
  = true
  /\ generateAIInsights sample_settings heat_wave
     = [heat_insight sample_settings]
  /\ count_category "heat" (generateAIInsights sample_settings heat_wave) = 1.
Proof.
  split; [reflexivity|].
  apply (@heat_alone_gives_one_heat_insight unit unit sample_settings
           heat_wave).
  - reflexivity.
  - intros rule [<-|[<-|[<-|[]]]] Hcategory.
    + exfalso. apply Hcategory. reflexivity.
    + reflexivity.
    + reflexivity.
Defined.

(** * Further properties of the controller *)

Section ControllerFrame.

Context {DailyForecast Alert JsError : Type}.

Implicit Types w : @World DailyForecast Alert JsError.
Implicit Types s : @AppState DailyForecast Alert.
Implicit Types x : @WeatherData DailyForecast Alert.
Implicit Types e : @Event DailyForecast Alert JsError.
Implicit Types r : @Result DailyForecast Alert JsError.
Implicit Types err : JsError.

Ltac produced H :=
  try discriminate H;
  match type of H with
  | Some ?a = Some ?b =>
      let E := fresh "E" in
      assert (E : b = a) by congruence; clear H; subst b
  end.

Lemma step_effect w w' e : sound w -> step w e = Some w' -> Effect w w' e.
Proof.
  intros [Hp _] Hstep.
  assert (Hrequest : Effect w (run requestLocation w) Mount).
  { rewrite run_requestLocation.
    destruct (navigator_geolocation w);
      [apply effect_none | apply effect_start]; reflexivity. }
  destruct e as [| | | |l|i p|i err|i r]; unfold step in Hstep.
  - produced Hstep. exact Hrequest.
  - destruct (render (app w)); produced Hstep.
    destruct Hrequest as [H _|H _|? ? H|? ? H]; try discriminate H;
      [apply effect_none | apply effect_start]; auto.
  - destruct (render (app w)); produced Hstep.
    destruct Hrequest as [H _|H _|? ? H|? ? H]; try discriminate H;
      [apply effect_none | apply effect_start]; auto.
  - destruct (render (app w)) as [| |c [|] o]; produced Hstep.
    destruct (weather (app w)) eqn:Ew;
      [apply effect_start | apply effect_none]; reflexivity.
  - destruct (render (app w)); produced Hstep.
    apply effect_start; reflexivity.
  - destruct (nth_error (geo_pending w) i) as [g|] eqn:Hn; produced Hstep.
    pose proof (nth_error_Forall _ (proj2 Hp) Hn) as Hg; cbn beta in Hg; subst g.
    apply effect_start; reflexivity.
  - destruct (nth_error (geo_pending w) i) as [g|] eqn:Hn; produced Hstep.
    pose proof (nth_error_Forall _ (proj2 Hp) Hn) as Hg; cbn beta in Hg; subst g.
    apply effect_start; reflexivity.
  - destruct (nth_error (in_flight w) i) as [f|] eqn:Hn; produced Hstep.
    pose proof (nth_error_Forall _ (proj1 Hp) Hn) as Hf; cbn beta in Hf.
    rewrite Hf. destruct r as [x|err].
    + eapply effect_success; reflexivity.
    + eapply effect_failure; reflexivity.
Qed.

Lemma remove_nth_last {A : Type} (l : list A) (a : A) :
  remove_nth (List.length l) (l ++ [a]) = l.
Proof.
  induction l as [|b l IH]; cbn; [reflexivity | now rewrite IH].
Qed.

Lemma step_frame w w' e :
  sound w -> step w e = Some w' -> is_success e = false ->
  weather (app w') = weather (app w)
  /\ currentLocation (app w') = currentLocation (app w).
Proof.
  intros Hs Hstep Hno.
  destruct (step_effect e Hs Hstep) as [H _|H _|i x He H|i err He H];
    rewrite H; cbn; auto.
  subst e. discriminate Hno.
Qed.

Lemma reachable_presentable (geo : bool) w :
  reachable geo w -> loading (app w) = false ->
  is_some (weather (app w)) = true \/ error (app w) = Some FETCH_FAILED.
Proof.
  induction 1 as [|w w' e Hr IH Hstep]; [discriminate|].
  destruct (step_effect e (reachable_sound Hr) Hstep)
    as [H _|H _|i x He H|i err He H]; rewrite H; cbn; auto.
  discriminate.
Qed.

(** X1.  The location label always belongs to the held weather: it is empty
    while no weather is held, and "name, country" of the held weather from
    then on, whatever events have happened. *)
Theorem label_follows_weather (geo : bool) w :
  reachable geo w ->
  currentLocation (app w) = label_of (weather (app w)).
Proof.
  induction 1 as [|w w' e Hr IH Hstep]; [reflexivity|].
  destruct (step_effect e (reachable_sound Hr) Hstep)
    as [H _|H _|i x He H|i err He H]; rewrite H; cbn; auto.
Qed.

(** X2.  Once the loading screen is gone there is something to show: held
    weather or the message of a failed fetch.  So the dashboard is never
    rendered without weather, and the controller is never idle. *)
Theorem dashboard_never_empty (geo : bool) w :
  reachable geo w ->
  (loading (app w) = false ->
   is_some (weather (app w)) = true \/ error (app w) = Some FETCH_FAILED)
  /\ (forall (c : string) (d : bool), render (app w) <> Dashboard c d None)
  /\ phase (app w) <> Idle.
Proof.
  intros Hr. pose proof (reachable_presentable Hr) as Hp.
  split; [exact Hp|].
  assert (Hrender : forall (c : string) (d : bool),
             render (app w) <> Dashboard c d None).
  { intros c d. unfold render.
    destruct (loading (app w)); [discriminate|].
    destruct (Hp eq_refl) as [Hheld|Herr].
    - destruct (weather (app w)); [|discriminate Hheld].
      rewrite andb_false_r. discriminate.
    - rewrite Herr. destruct (weather (app w)); cbn; discriminate. }
  split; [exact Hrender|].
  unfold phase. destruct (render (app w)) as [|m|c d [x|]] eqn:Hview;
    try discriminate.
  exfalso. exact (Hrender c d eq_refl).
Qed.

(** X3.  When a weather request settles, with a result or with a rejection,
    the loading flag is cleared and the loading screen is gone; the settled
    request leaves the list of requests in flight, the others stay, and no
    request is made in its place. *)
Theorem settled_fetch_stops_loading (geo : bool) w w' (i : nat) r :
  reachable geo w ->
  step w (FetchSettled i r) = Some w' ->
  loading (app w') = false
  /\ render (app w') <> LoadingScreen
  /\ in_flight w' = remove_nth i (in_flight w)
  /\ geo_pending w' = geo_pending w
  /\ i < List.length (in_flight w).
Proof.
  intros Hr Hstep. pose proof (reachable_sound Hr) as [[Hf _] _].
  unfold step in Hstep.
  destruct (nth_error (in_flight w) i) as [f|] eqn:Hn; produced Hstep.
  assert (Hi : i < List.length (in_flight w))
    by (apply nth_error_Some; congruence).
  pose proof (nth_error_Forall _ Hf Hn) as Hresume; cbn beta in Hresume.
  rewrite Hresume.
  destruct r as [x|err];
    [rewrite run_resume_resolved | rewrite run_resume_rejected];
    (split; [reflexivity|]);
    (split; [unfold render; cbn;
             match goal with
             | |- (if ?b then _ else _) <> _ => destruct b
             end; discriminate|]);
    cbn; repeat split; exact Hi.
Qed.

(** X4.  Picking a suggestion of the location search starts a fetch for
    exactly the latitude and longitude of the suggestion; the loading screen
    comes up with [error] cleared, and the weather and the label that were
    held stay held until the fetch settles. *)
Theorem selection_fetches_selected_coordinates w w' (l : LocationSuggestion) :
  step w (SelectLocation l) = Some w' ->
  loading (app w) = false
  /\ map coordinates (in_flight w')
     = map coordinates (in_flight w) ++ [(suggestion_lat l, suggestion_lon l)]
  /\ weather (app w') = weather (app w)
  /\ currentLocation (app w') = currentLocation (app w)
  /\ error (app w') = None
  /\ render (app w') = LoadingScreen.
Proof.
  intros Hstep. unfold step in Hstep.
  destruct (render (app w)) as [|m|c d o] eqn:Hview; produced Hstep.
  unfold handleLocationSelect. rewrite run_fetchWeatherData. cbn.
  repeat split.
  - unfold render in Hview. destruct (loading (app w)); [discriminate|reflexivity].
  - now rewrite map_app.
Qed.

(** X5.  "Use my location" on a browser with a geolocation service changes
    nothing on the page and starts no fetch: it only asks the device.  When
    the device answers with a position, a fetch for exactly its latitude and
    longitude starts, the loading screen comes up, and nothing is logged. *)
Theorem located_position_is_fetched w w1 :
  navigator_geolocation w = true ->
  step w ClickUseLocation = Some w1 ->
  app w1 = app w
  /\ in_flight w1 = in_flight w
  /\ console w1 = console w
  /\ forall (p : Position), exists w2,
       step w1 (PositionAcquired (List.length (geo_pending w)) p) = Some w2
       /\ map coordinates (in_flight w2)
          = map coordinates (in_flight w) ++ [(latitude p, longitude p)]
       /\ geo_pending w2 = geo_pending w
       /\ console w2 = console w
       /\ weather (app w2) = weather (app w)
       /\ render (app w2) = LoadingScreen.
Proof.
  intros Hgeo Hstep. unfold step in Hstep.
  destruct (render (app w)) as [|m|c d o] eqn:Hview; produced Hstep.
  rewrite run_requestLocation, Hgeo. cbn.
  repeat split.
  intros p. eexists. unfold step. cbn [geo_pending park_geo].
  rewrite nth_error_last. rewrite run_onSuccess, run_fetchWeatherData.
  split; [reflexivity|]. cbn. repeat split.
  - now rewrite map_app.
  - apply remove_nth_last.
Qed.

(** X6.  Nothing can be clicked while the loading screen is up.  "Try Again"
    exists only on the error screen, where no weather is held; the search,
    "use my location" and refresh exist only on the dashboard, where the
    refresh button is never disabled. *)
Theorem clicks_need_their_screen w w' e :
  step w e = Some w' ->
  is_click e = true ->
  loading (app w) = false
  /\ (e = ClickTryAgain ->
      weather (app w) = None /\ truthy (error (app w)) = true)
  /\ (e <> ClickTryAgain ->
      render (app w) = Dashboard (currentLocation (app w)) false (weather (app w))).
Proof.
  intros Hstep Hclick.
  assert (Hdash : forall (c : string) (d : bool) o,
             render (app w) = Dashboard c d o ->
             loading (app w) = false
             /\ render (app w)
                = Dashboard (currentLocation (app w)) false (weather (app w))).
  { intros c d o. unfold render. destruct (loading (app w)); [discriminate|].
    destruct (_ && _); [discriminate|]. auto. }
  destruct e as [| | | |l|i p|i err|i r]; try discriminate Hclick;
    unfold step in Hstep;
    destruct (render (app w)) as [|m|c d o] eqn:Hview; try discriminate Hstep.
  - apply render_error_screen in Hview as [Hw [_ [Ht Hl]]].
    repeat split; auto. intros Hne; now contradiction Hne.
  - destruct (Hdash c d o eq_refl) as [Hl Hd].
    repeat split; auto; discriminate.
  - destruct (Hdash c d o eq_refl) as [Hl Hd].
    repeat split; auto; discriminate.
  - destruct (Hdash c d o eq_refl) as [Hl Hd].
    repeat split; auto; discriminate.
Qed.

(** X7.  Only the settling of a weather request takes the loading screen
    down: through any events among which no request settles, a set
    [loading] flag stays set. *)
Theorem loading_ends_only_by_settlement (geo : bool) w w' (es : list Event) :
  reachable geo w ->
  loading (app w) = true ->
  steps w es = Some w' ->
  forallb (fun e => negb (is_settlement e)) es = true ->
  loading (app w') = true.
Proof.
  intros Hr. pose proof (reachable_sound Hr) as Hs. clear Hr.
  revert w Hs. induction es as [|e es IH]; intros w Hs Hl Hsteps Hno;
    cbn [steps] in Hsteps; cbn [forallb] in Hno.
  - now produced Hsteps.
  - destruct (step w e) as [w1|] eqn:He; [|discriminate].
    apply andb_true_iff in Hno as [Hno1 Hno2].
    apply negb_true_iff in Hno1.
    apply (IH w1); auto.
    + eapply step_sound; eassumption.
    + destruct (step_effect e Hs He) as [H _|H _|i x Hev H|i err Hev H];
        try (subst e; discriminate Hno1); rewrite H; cbn; auto.
Qed.

(** X8.  The held weather and its label are replaced by a successful fetch
    and by nothing else: every other event, a failed fetch and the start of
    a new one among them, leaves both as they were. *)
Theorem only_success_replaces_weather (geo : bool) w w' e :
  reachable geo w ->
  step w e = Some w' ->
  is_success e = false ->
  weather (app w') = weather (app w)
  /\ currentLocation (app w') = currentLocation (app w).
Proof.
  intros Hr. apply step_frame. exact (reachable_sound Hr).
Qed.

End ControllerFrame.

(** * Properties of the background *)

Section BackgroundFacts.

Context {DailyForecast Alert : Type}.

Implicit Types s : @AppState DailyForecast Alert.
Implicit Types x : @WeatherData DailyForecast Alert.

Lemma isNight_hours (hour : nat) :
  isNight hour = true <-> hour < 6 \/ 18 < hour.
Proof.
  unfold isNight. rewrite orb_true_iff, !Nat.ltb_lt. reflexivity.
Qed.

Lemma same_letter_lower (a b : ascii) :
  same_letter a b = true -> toLowerCase_char a = toLowerCase_char b.
Proof.
  unfold same_letter, toLowerCase_char.
  pose proof (ascii_nat_embedding a) as Ha.
  pose proof (ascii_nat_embedding b) as Hb.
  rewrite !orb_true_iff, !andb_true_iff, !Nat.leb_le, !Nat.eqb_eq.
  intros [[Heq | [[Ha1 Ha2] Hba]] | [[Hb1 Hb2] Hab]].
  - assert (a = b) by congruence. subst b. reflexivity.
  - destruct (Nat.leb_spec 65 (nat_of_ascii a)); [|lia].
    destruct (Nat.leb_spec (nat_of_ascii a) 90); [|lia].
    destruct (Nat.leb_spec (nat_of_ascii b) 90); [lia|].
    rewrite andb_false_r. cbn [andb]. congruence.
  - destruct (Nat.leb_spec 65 (nat_of_ascii b)); [|lia].
    destruct (Nat.leb_spec (nat_of_ascii b) 90); [|lia].
    destruct (Nat.leb_spec (nat_of_ascii a) 90); [lia|].
    rewrite andb_false_r. cbn [andb]. congruence.
Qed.

Lemma same_letters_lower (s1 s2 : string) :
  same_letters s1 s2 = true -> toLowerCase s1 = toLowerCase s2.
Proof.
  revert s2. induction s1 as [|a r1 IH]; intros [|b r2]; cbn;
    try discriminate; [reflexivity|].
  rewrite andb_true_iff. intros [Hab Hr].
  now rewrite (same_letter_lower _ _ Hab), (IH _ Hr).
Qed.

(** X9.  The night gradient is shown exactly when weather is held and the
    hour is before 6 or after 18: the hours 6 and 18 are day, and without
    weather the hour does not matter. *)
Theorem night_gradient_iff (hour : nat) (o : option (@WeatherData DailyForecast Alert)) :
  getBackgroundGradient hour o = GRADIENT_NIGHT
  <-> is_some o = true /\ (hour < 6 \/ 18 < hour).
Proof.
  rewrite <- isNight_hours.
  destruct o as [x|]; cbn [getBackgroundGradient is_some].
  - destruct (isNight hour).
    + tauto.
    + split; [|intros [_ H]; discriminate H].
      repeat match goal with
             | |- context [if ?b then _ else _] => destruct b
             end; intros H; discriminate H.
  - split; [intros H; discriminate H | intros [H _]; discriminate H].
Qed.

(** X10.  The condition is matched without regard to the case of its
    letters: two weathers whose conditions differ in letter case at most get
    the same gradient at every hour. *)
Theorem gradient_ignores_case (hour : nat) x1 x2 :
  same_letters (condition (current x1)) (condition (current x2)) = true ->
  getBackgroundGradient hour (Some x1) = getBackgroundGradient hour (Some x2).
Proof.
  intros H. unfold getBackgroundGradient.
  now rewrite (same_letters_lower _ _ H).
Qed.

End BackgroundFacts.

Section PageFacts.

Context {DailyForecast Alert JsError : Type}.

Implicit Types w : @World DailyForecast Alert JsError.
Implicit Types s : @AppState DailyForecast Alert.
Implicit Types e : @Event DailyForecast Alert JsError.

(** X11.  At a given hour the background changes only when a fetch succeeds:
    starting a fetch, a failed fetch and every other event leave it as it
    was.  The error screen is always drawn on the default gradient, since it
    is rendered only when no weather is held. *)
Theorem background_changes_on_success_only :
  (forall (geo : bool) w w' e (hour : nat),
      reachable geo w ->
      step w e = Some w' ->
      is_success e = false ->
      getBackgroundGradient hour (weather (app w'))
      = getBackgroundGradient hour (weather (app w)))
  /\ (forall s (m : option string) (hour : nat),
        render s = ErrorScreen m ->
        getBackgroundGradient hour (weather s) = GRADIENT_DEFAULT).
Proof.
  split.
  - intros geo w w' e hour Hr Hstep Hno.
    destruct (step_frame e (reachable_sound Hr) Hstep Hno) as [Hw _].
    now rewrite Hw.
  - intros s m hour H. apply render_error_screen in H as [Hw _].
    now rewrite Hw.
Qed.

(** X12.  Every failure is logged once and nothing else is: a refused
    position and a rejected weather request each add their one line to the
    console, and every other event leaves the console as it was. *)
Theorem failures_are_logged_once (geo : bool) w w' e :
  reachable geo w ->
  step w e = Some w' ->
  console w' = console w ++ logged e.
Proof.
  intros Hr Hstep. pose proof (reachable_sound Hr) as [[Hf Hg] _].
  assert (Hrequest : console (run requestLocation w) = console w).
  { rewrite run_requestLocation. destruct (navigator_geolocation w); reflexivity. }
  destruct e as [| | | |l|i p|i err|i r]; unfold step in Hstep; cbn [logged];
    rewrite ?app_nil_r.
  - assert (E : w' = run requestLocation w) by congruence. now subst w'.
  - destruct (render (app w)); try discriminate Hstep.
    assert (E : w' = run requestLocation w) by congruence. now subst w'.
  - destruct (render (app w)); try discriminate Hstep.
    assert (E : w' = run requestLocation w) by congruence. now subst w'.
  - destruct (render (app w)) as [| |c [|] o]; try discriminate Hstep.
    assert (E : w' = run (handleRefresh (weather (app w))) w) by congruence.
    subst w'. destruct (weather (app w)); reflexivity.
  - destruct (render (app w)); try discriminate Hstep.
    assert (E : w' = run (handleLocationSelect l) w) by congruence.
    now subst w'.
  - destruct (nth_error (geo_pending w) i) as [g|] eqn:Hn;
      try discriminate Hstep.
    assert (E : w' = run (onSuccess g p) (take_geo i w)) by congruence.
    subst w'.
    pose proof (nth_error_Forall _ Hg Hn) as Hreq; cbn beta in Hreq; subst g.
    reflexivity.
  - destruct (nth_error (geo_pending w) i) as [g|] eqn:Hn;
      try discriminate Hstep.
    assert (E : w' = run (onError g err) (take_geo i w)) by congruence.
    subst w'.
    pose proof (nth_error_Forall _ Hg Hn) as Hreq; cbn beta in Hreq; subst g.
    reflexivity.
  - destruct (nth_error (in_flight w) i) as [f|] eqn:Hn;
      try discriminate Hstep.
    assert (E : w' = run (resume f r) (take_fetch i w)) by congruence.
    subst w'.
    pose proof (nth_error_Forall _ Hf Hn) as Hres; cbn beta in Hres.
    rewrite Hres. destruct r; cbn [logged]; rewrite ?app_nil_r; reflexivity.
Qed.

End PageFacts.

(** * Further scenarios, checked *)

Lemma label_follows_weather_witness :
  reachable true denied_online
  /\ currentLocation (app denied_online) = "New York, US".
Proof.
  split; [exact denied_online_reachable|].
  exact (@label_follows_weather unit unit string true denied_online
           denied_online_reachable).
Defined.

Lemma dashboard_never_empty_witness :
  reachable true denied_offline
  /\ loading (app denied_offline) = false
  /\ weather (app denied_offline) = None
  /\ error (app denied_offline) = Some FETCH_FAILED
  /\ phase (app denied_offline) <> Idle.
Proof.
  destruct (@dashboard_never_empty unit unit string true denied_offline
              denied_offline_reachable)
    as [Hshow [_ Hphase]].
  split; [exact denied_offline_reachable|]. split; [reflexivity|].
  split; [reflexivity|]. split; [|exact Hphase].
  destruct (Hshow eq_refl) as [Hheld|Herror];
    [discriminate Hheld | exact Herror].
Defined.

Lemma settled_fetch_stops_loading_witness :
  reachable true refreshing
  /\ loading (app refreshing) = true
  /\ step refreshing (FetchSettled 0 (Rejected "offline")) = Some refresh_failed
  /\ loading (app refresh_failed) = false
  /\ in_flight refresh_failed = [].
Proof.
  assert (Hstep : step refreshing (FetchSettled 0 (Rejected "offline"))
                  = Some refresh_failed)
    by (vm_compute; reflexivity).
  destruct (@settled_fetch_stops_loading unit unit string true refreshing
              refresh_failed 0 (Rejected "offline") refreshing_reachable Hstep)
    as [Hl [_ [Hflight _]]].
  split; [exact refreshing_reachable|]. split; [reflexivity|].
  split; [exact Hstep|]. split; [exact Hl | exact Hflight].
Defined.

Lemma selection_fetches_selected_coordinates_witness :
  step denied_online (SelectLocation london_suggestion) = Some selecting
  /\ map coordinates (in_flight selecting) = [(51.5%float, (-0.125)%float)]
  /\ weather (app selecting) = Some new_york
  /\ render (app selecting) = LoadingScreen.
Proof.
  assert (Hstep : step denied_online (SelectLocation london_suggestion)
                  = Some selecting)
    by (vm_compute; reflexivity).
  destruct (@selection_fetches_selected_coordinates unit unit string
              denied_online selecting london_suggestion Hstep)
    as [_ [Hcoords [Hw [_ [_ Hview]]]]].
  split; [exact Hstep|]. split; [exact Hcoords|].
  split; [exact Hw | exact Hview].
Defined.

Lemma located_position_is_fetched_witness :
  navigator_geolocation denied_online = true
  /\ step denied_online ClickUseLocation = Some locating
  /\ app locating = app denied_online
  /\ in_flight locating = []
  /\ step locating (PositionAcquired 0 london_position) = Some located
  /\ map coordinates (in_flight located) = [(51.5%float, (-0.125)%float)].
Proof.
  assert (Hstep : step denied_online ClickUseLocation = Some locating)
    by (vm_compute; reflexivity).
  assert (Hnext : step locating (PositionAcquired 0 london_position)
                  = Some located)
    by (vm_compute; reflexivity).
  destruct (@located_position_is_fetched unit unit string denied_online
              locating eq_refl Hstep)
    as [Happ [Hflight [_ Hanswer]]].
  destruct (Hanswer london_position) as [w2 [Hstep2 [Hcoords _]]].
  assert (Hsame : w2 = located).
  { change (List.length (geo_pending denied_online)) with 0 in Hstep2.
    congruence. }
  rewrite Hsame in Hcoords.
  split; [reflexivity|]. split; [exact Hstep|]. split; [exact Happ|].
  split; [exact Hflight|]. split; [exact Hnext | exact Hcoords].
Defined.

Lemma clicks_need_their_screen_witness :
  step denied_offline ClickTryAgain = Some retrying
  /\ loading (app denied_offline) = false
  /\ weather (app denied_offline) = None.
Proof.
  assert (Hstep : step denied_offline ClickTryAgain = Some retrying)
    by (vm_compute; reflexivity).
  destruct (@clicks_need_their_screen unit unit string denied_offline
              retrying ClickTryAgain Hstep eq_refl)
    as [Hl [Hretry _]].
  split; [exact Hstep|]. split; [exact Hl|].
  exact (proj1 (Hretry eq_refl)).
Defined.

Lemma loading_ends_only_by_settlement_witness :
  reachable true mounted
  /\ loading (app mounted) = true
  /\ steps mounted [PositionFailed 0 "denied"] = Some denied
  /\ loading (app denied) = true.
Proof.
  assert (Hsteps : steps mounted [PositionFailed 0 "denied"] = Some denied)
    by (vm_compute; reflexivity).
  split; [exact mounted_reachable|]. split; [reflexivity|].
  split; [exact Hsteps|].
  exact (@loading_ends_only_by_settlement unit unit string true mounted
           denied [PositionFailed 0 "denied"] mounted_reachable eq_refl Hsteps
           eq_refl).
Defined.

Lemma only_success_replaces_weather_witness :
  reachable true refreshing
  /\ step refreshing (FetchSettled 0 (Rejected "offline")) = Some refresh_failed
  /\ weather (app refresh_failed) = Some new_york
  /\ currentLocation (app refresh_failed) = "New York, US".
Proof.
  assert (Hstep : step refreshing (FetchSettled 0 (Rejected "offline"))
                  = Some refresh_failed)
    by (vm_compute; reflexivity).
  destruct (@only_success_replaces_weather unit unit string true refreshing
              refresh_failed (FetchSettled 0 (Rejected "offline"))
              refreshing_reachable Hstep eq_refl)
    as [Hw Hlabel].
  split; [exact refreshing_reachable|]. split; [exact Hstep|].
  split; [exact Hw | exact Hlabel].
Defined.

Lemma night_gradient_iff_witness :
  getBackgroundGradient 19 (Some new_york) = GRADIENT_NIGHT
  /\ getBackgroundGradient 18 (Some new_york) = GRADIENT_CLEAR.
Proof.
  split; [|reflexivity].
  apply (proj2 (@night_gradient_iff unit unit 19 (Some new_york))).
  split; [reflexivity | right; apply Nat.lt_succ_diag_r].
Defined.

Lemma gradient_ignores_case_witness :
  same_letters (condition (current new_york))
    (condition (current new_york_shouted)) = true
  /\ getBackgroundGradient 12 (Some new_york_shouted) = GRADIENT_CLEAR.
Proof.
  split; [reflexivity|].
  rewrite <- (@gradient_ignores_case unit unit 12 new_york new_york_shouted
                eq_refl).
  reflexivity.
Defined.

Lemma background_changes_on_success_only_witness :
  step refreshing (FetchSettled 0 (Rejected "offline")) = Some refresh_failed
  /\ getBackgroundGradient 12 (weather (app refresh_failed)) = GRADIENT_CLEAR
  /\ render (app denied_offline) = ErrorScreen (Some FETCH_FAILED)
  /\ getBackgroundGradient 23 (weather (app denied_offline)) = GRADIENT_DEFAULT.
Proof.
  assert (Hstep : step refreshing (FetchSettled 0 (Rejected "offline"))
                  = Some refresh_failed)
    by (vm_compute; reflexivity).
  pose proof (proj1 (background_changes_on_success_only (JsError := string))
                true refreshing refresh_failed
                (FetchSettled 0 (Rejected "offline")) 12
                refreshing_reachable Hstep eq_refl) as Hsame.
  pose proof (proj2 (background_changes_on_success_only (JsError := string))
                (app denied_offline) (Some FETCH_FAILED) 23 eq_refl)
    as Hdefault.
  split; [exact Hstep|]. split; [exact Hsame|].
  split; [reflexivity | exact Hdefault].
Defined.

Lemma failures_are_logged_once_witness :
  reachable true refreshing
  /\ step refreshing (FetchSettled 0 (Rejected "offline")) = Some refresh_failed
  /\ console refresh_failed
     = [("Geolocation error:", "denied"); ("Weather fetch error:", "offline")].
Proof.
  assert (Hstep : step refreshing (FetchSettled 0 (Rejected "offline"))
                  = Some refresh_failed)
    by (vm_compute; reflexivity).
  split; [exact refreshing_reachable|]. split; [exact Hstep|].
  exact (@failures_are_logged_once unit unit string true refreshing
           refresh_failed (FetchSettled 0 (Rejected "offline"))
           refreshing_reachable Hstep).
Defined.
